(** * canopus: dispatcher, observation registry, message-ID purge and queue

    A shallow embedding of the CoAP server of the canopus package
    (server source, [src/unnamed/part_001]) and of its delivery queue
    ([src/queue.go]).  Mutable server fields become an explicit state
    record, every observable action (a datagram handed to the transport,
    an event callback, a route handler call) becomes an entry of an effect
    trace, and the clock and the message-ID generator are inputs. *)

From Stdlib Require Import ZArith String List Lia.
From stdpp Require Import base option list gmap strings pretty.

Local Open Scope Z_scope.

(** ** Message vocabulary *)

(** The message types, codes and option numbers are declared outside the
    server source.  The spec names the four message types and the options
    URI-Path, Content-Format, Observe and Proxy-URI; the numeric values are
    the ones of the CoAP standard, and only their being distinct matters
    below. *)

(** Modelled from the spec: message type Confirmable. *)
Definition TYPE_CONFIRMABLE : Z := 0.
(** Modelled from the spec: message type NonConfirmable. *)
Definition TYPE_NONCONFIRMABLE : Z := 1.
(** Modelled from the spec: message type Acknowledgement. *)
Definition TYPE_ACKNOWLEDGEMENT : Z := 2.
(** Modelled from the spec: message type Reset. *)
Definition TYPE_RESET : Z := 3.

(** Modelled from the spec: the code of a message, "method or status". *)
Definition CoapCode := Z.
(** Modelled from the spec: the code of an empty message. *)
Definition COAPCODE_0_EMPTY : CoapCode := 0.
(** Modelled from the spec: the four supported methods. *)
Definition GET : CoapCode := 1.
(** Modelled from the spec: method POST. *)
Definition POST : CoapCode := 2.
(** Modelled from the spec: method PUT. *)
Definition PUT : CoapCode := 3.
(** Modelled from the spec: method DELETE. *)
Definition DELETE : CoapCode := 4.
(** Modelled from the spec: the status of a notification, 2.05. *)
Definition COAPCODE_205_CONTENT : CoapCode := 69.
(** Modelled from the spec: status "bad option", 4.02. *)
Definition COAPCODE_402_BAD_OPTION : CoapCode := 130.
(** Modelled from the spec: status "not found", 4.04. *)
Definition COAPCODE_404_NOT_FOUND : CoapCode := 132.
(** Modelled from the spec: status "method not allowed", 4.05. *)
Definition COAPCODE_405_METHOD_NOT_ALLOWED : CoapCode := 133.
(** Modelled from the spec: status "unsupported content format", 4.15. *)
Definition COAPCODE_415_UNSUPPORTED_CONTENT_FORMAT : CoapCode := 143.
(** Modelled from the spec: status "not implemented", 5.01. *)
Definition COAPCODE_501_NOT_IMPLEMENTED : CoapCode := 161.

(** Modelled from the spec: the number of an option. *)
Definition OptionCode := Z.
(** Modelled from the spec: option Observe. *)
Definition OPTION_OBSERVE : OptionCode := 6.
(** Modelled from the spec: option URI-Path. *)
Definition OPTION_URI_PATH : OptionCode := 11.
(** Modelled from the spec: option Content-Format. *)
Definition OPTION_CONTENT_FORMAT : OptionCode := 12.
(** Modelled from the spec: option Proxy-URI. *)
Definition OPTION_PROXY_URI : OptionCode := 35.

(** Modelled from the spec: the value of an option, declared outside the
    server source.  The server reads it as a Go [interface{}]: it tests it
    against [nil] and stores numbers in it. *)
Inductive OptionValue : Type :=
| IntValue (n : Z)
| StrValue (s : string).

(** Modelled from the spec: an option, a number with a value that may be
    absent ("Observe option present with no value"). *)
Record CoapOption : Type := mkOption {
  OptCode : OptionCode;
  OptValue : option OptionValue
}.

(** Modelled from the spec: [Message] is declared outside the server source;
    the fields are the ones the spec lists (type, code, message ID, token,
    ordered options, payload) under the names the server uses.  A token is a
    byte sequence; the server converts it to a Go string and back without
    changing a byte, so one type serves both. *)
Record Message : Type := mkMessage {
  MessageType : Z;
  Code : CoapCode;
  MessageId : Z;
  Token : string;
  Options : list CoapOption;
  Payload : option string
}.

(** [m.Token = t] *)
Definition withToken (m : Message) (t : string) : Message :=
  mkMessage (MessageType m) (Code m) (MessageId m) t (Options m) (Payload m).

(** [m.Options = os] *)
Definition withOptions (m : Message) (os : list CoapOption) : Message :=
  mkMessage (MessageType m) (Code m) (MessageId m) (Token m) os (Payload m).

(** [m.Payload = p] *)
Definition withPayload (m : Message) (p : option string) : Message :=
  mkMessage (MessageType m) (Code m) (MessageId m) (Token m) (Options m) p.

(** The constructors and accessors of [Message] are not among the sources.
    A constructor receives a message ID and a type only, so token, options
    and payload of what it builds are empty. *)

(** Modelled from the spec: [NewMessage], a message of the given type, code
    and message ID and nothing else. *)
Definition NewMessage (t : Z) (c : CoapCode) (id : Z) : Message :=
  mkMessage t c id EmptyString [] None.

(** Modelled from the spec: [NewMessageOfType], the "bare Acknowledgement"
    of auto-acknowledgement when called with that type. *)
Definition NewMessageOfType (t : Z) (id : Z) : Message :=
  NewMessage t COAPCODE_0_EMPTY id.

(** Modelled from the spec: [EmptyMessage], an empty message of the given
    type (the Reset answering a duplicate). *)
Definition EmptyMessage (id : Z) (t : Z) : Message :=
  NewMessage t COAPCODE_0_EMPTY id.

(** Modelled from the spec: [NotFoundMessage], the "not found" reply. *)
Definition NotFoundMessage (id : Z) (t : Z) : Message :=
  NewMessage t COAPCODE_404_NOT_FOUND id.

(** Modelled from the spec: [MethodNotAllowedMessage], the "method not
    allowed" reply. *)
Definition MethodNotAllowedMessage (id : Z) (t : Z) : Message :=
  NewMessage t COAPCODE_405_METHOD_NOT_ALLOWED id.

(** Modelled from the spec: [UnsupportedContentFormatMessage], the
    "unsupported content format" reply. *)
Definition UnsupportedContentFormatMessage (id : Z) (t : Z) : Message :=
  NewMessage t COAPCODE_415_UNSUPPORTED_CONTENT_FORMAT id.

(** Modelled from the spec: [NotImplementedMessage], the "not implemented"
    reply. *)
Definition NotImplementedMessage (id : Z) (t : Z) : Message :=
  NewMessage t COAPCODE_501_NOT_IMPLEMENTED id.

(** Modelled from the spec: [BadOptionMessage], the "bad option" reply. *)
Definition BadOptionMessage (id : Z) (t : Z) : Message :=
  NewMessage t COAPCODE_402_BAD_OPTION id.

(** Modelled from the spec: [GetOptions], the options of one number, in
    the order of the message ("ordered set of options"). *)
Definition GetOptions (m : Message) (c : OptionCode) : list CoapOption :=
  List.filter (fun o => OptCode o =? c) (Options m).

(** Modelled from the spec: [GetOption], the first option of one number;
    [None] is Go's [nil] ("carries an Observe option"). *)
Definition GetOption (m : Message) (c : OptionCode) : option CoapOption :=
  head (GetOptions m c).

(** Modelled from the spec: [AddOptions], appending options in order. *)
Definition AddOptions (m : Message) (os : list CoapOption) : Message :=
  withOptions m (Options m ++ os).

(** Modelled from the spec: [AddOption], appending one option. *)
Definition AddOption (m : Message) (c : OptionCode) (v : option OptionValue) : Message :=
  AddOptions m [mkOption c v].

(** Modelled from the spec: [CloneOptions], appending the other message's
    options of the listed numbers, one number after the other ("echoes the
    originating path/content-format options"). *)
Definition CloneOptions (m cm : Message) (codes : list OptionCode) : Message :=
  fold_left (fun acc c => AddOptions acc (GetOptions cm c)) codes m.

(** Modelled from the spec: [SetToken] of a request, setting the token of
    its message. *)
Definition SetToken (m : Message) (t : string) : Message := withToken m t.

(** Modelled from the spec: [SetStringPayload] of a request, setting the
    payload of its message. *)
Definition SetStringPayload (m : Message) (s : string) : Message :=
  withPayload m (Some s).

(** ** Addresses, requests, routes *)

(** Go's [net.UDPAddr]. *)
Record UDPAddr : Type := mkUDPAddr {
  IP : list Z;
  Port : Z;
  Zone : string
}.

(** Modelled from the spec: a request as the dispatcher builds it for a
    handler, the inbound message with the path attributes and the sender. *)
Record CoapRequest : Type := mkRequest {
  reqMessage : Message;
  reqAttributes : list (string * string);
  reqAddr : UDPAddr
}.

(** Modelled from the spec: a handler's answer, the [NilResponse] value
    ("a handler producing no response") or a response with its message. *)
Inductive CoapResponse : Type :=
| NilResponse
| MessageResponse (m : Message).

(** Modelled from the spec: [Route] is declared outside the server source;
    "a Route exposes a handler function (Request) -> Response and an AutoAck
    flag"; path, method and media types are read by the discovery route.
    A handler is taken to be a function of the request. *)
Record Route : Type := mkRoute {
  Path : string;
  Method : string;
  MediaTypes : list Z;
  AutoAck : bool;
  Handler : CoapRequest -> CoapResponse
}.

(** Modelled from the spec: the error values the dispatcher compares with,
    three from the matcher and one from the decoder, and any other error. *)
Inductive Error : Type :=
| ERR_NO_MATCHING_ROUTE
| ERR_NO_MATCHING_METHOD
| ERR_UNSUPPORTED_CONTENT_FORMAT
| ERR_UNKNOWN_CRITICAL_OPTION
| ERR_OTHER (what : string).

(** ** Collaborators

    Functions and the constant the server calls but which live in other
    parts of the package or in Go's library: address rendering, the codec's
    path accessors, the proxy tests, the route table's matcher, response
    validation, and the purge constant.  Everything below holds for any
    implementation of them. *)
Class Collaborators : Type := {
  UDPAddr_String : UDPAddr -> string;
  GetUriPath : Message -> string;
  NewPathOptions : string -> list CoapOption;
  MethodString : CoapCode -> string;
  IsProxyRequest : Message -> bool;
  IsCoapUri : Message -> bool;
  IsHttpUri : string -> bool;
  StringValue : CoapOption -> string;
  MatchingRoute : string -> string -> list CoapOption -> list Route ->
                  option Route * list (string * string) * option Error;
  ValidateMessage : Message -> option Error;
  MESSAGEID_PURGE_DURATION : Z
}.

(** ** Observation registry *)

Record Observation : Type := mkObservation {
  Addr : UDPAddr;
  ObsToken : string;
  Resource : string;
  NotifyCount : Z
}.

Definition NewObservation (addr : UDPAddr) (token resource : string) : Observation :=
  mkObservation addr token resource 0.

(** ** Effects

    What one call of a server method does to the outside, in program
    order.  [SendMessageTo] is the transport call; [Go] is a [go]
    statement whose goroutine performs the wrapped call; the [Ev...]
    entries are the event sink's callbacks; [CallHandler] is the call of a
    route's handler; [Panic] is a Go run-time panic, which ends the call.
    [WriteRequest m] is a write to the request object of a [NotifyChange]
    call, [m] being the message the request holds afterwards, and
    [SendTo a] is the server's [SendTo(req, a)] on that object: it sends
    the message the request holds when it runs. *)
Inductive Effect : Type :=
| EvMessage (m : Message) (inbound : bool)
| EvError (e : Error)
| EvNotify (resource : string) (payload : option string) (m : Message)
| EvObserve (resource : string) (m : Message)
| EvObserveCancelled (resource : string) (m : Message)
| SendMessageTo (m : Message) (addr : UDPAddr)
| Go (e : Effect)
| CallCoapCoapProxy (m : Message) (addr : UDPAddr)
| CallCoapHttpProxy (m : Message) (addr : UDPAddr)
| CallHandler (r : Route) (req : CoapRequest)
| LogPrintln (text : string) (id : Z)
| Panic
| WriteRequest (m : Message)
| SendTo (addr : UDPAddr).

(** The datagrams one call hands to the transport itself. *)
Fixpoint sent (tr : list Effect) : list (Message * UDPAddr) :=
  match tr with
  | [] => []
  | SendMessageTo m a :: tr' => (m, a) :: sent tr'
  | _ :: tr' => sent tr'
  end.

(** The calls handed to goroutines, one for every [go] statement. *)
Fixpoint spawned (tr : list Effect) : list Effect :=
  match tr with
  | [] => []
  | Go e :: tr' => e :: spawned tr'
  | _ :: tr' => spawned tr'
  end.

(** The states the request object goes through in a trace. *)
Fixpoint written (tr : list Effect) : list Message :=
  match tr with
  | [] => []
  | WriteRequest m :: tr' => m :: written tr'
  | _ :: tr' => written tr'
  end.

(** The sends of the goroutines of one [NotifyChange] call.  A goroutine
    runs at some time after its [go] statement, so for each
    [go c.SendTo(req, a)] of the trace this gives [a] and the states of
    the request its send can find: the state at the [go] statement ([cur],
    if the request has been written to) and every state written later in
    the call.  A send is taken to read the request between two writes. *)
Fixpoint notifications (cur : option Message) (tr : list Effect)
  : list (UDPAddr * list Message) :=
  match tr with
  | [] => []
  | WriteRequest m :: tr' => notifications (Some m) tr'
  | Go (SendTo a) :: tr' =>
      (a, match cur with Some m => m :: written tr' | None => written tr' end)
      :: notifications cur tr'
  | _ :: tr' => notifications cur tr'
  end.

(** The route handler calls. *)
Fixpoint handlerCalls (tr : list Effect) : list (Route * CoapRequest) :=
  match tr with
  | [] => []
  | CallHandler r q :: tr' => (r, q) :: handlerCalls tr'
  | _ :: tr' => handlerCalls tr'
  end.

(** ** The delivery queue ([src/queue.go]) *)

Record Item : Type := mkItem {
  value : CoapRequest;
  priority : Z;
  index : Z;
  retries : Z;
  ts : option Z
}.

Definition withIndex (it : Item) (i : Z) : Item :=
  mkItem (value it) (priority it) i (retries it) (ts it).

(** A [*Item]: [None] is the nil pointer, [Some a] points to the item at
    address [a]. *)
Abbreviation ItemPtr := (option nat) (only parsing).

(** The items, by address.  Every address holds an item; which addresses
    are in use is not modelled. *)
Definition ItemHeap := nat -> Item.

(** [p.index = i] through the pointer to address [a]. *)
Definition setIndex (h : ItemHeap) (a : nat) (i : Z) : ItemHeap :=
  fun b => if Nat.eqb b a then withIndex (h b) i else h b.

(** [[]*Item]: the queue holds pointers, so an item pushed twice is one
    object at two positions, and an entry may be nil. *)
Definition PriorityQueue := list ItemPtr.

(** A call either returns or panics (nil dereference, index out of range). *)
Inductive Result (A : Type) : Type :=
| Returns (a : A)
| Panics.
Arguments Returns {A} a.
Arguments Panics {A}.

Definition PriorityQueue_Len (pq : PriorityQueue) : Z := Z.of_nat (length pq).

Definition PriorityQueue_Less (h : ItemHeap) (pq : PriorityQueue) (i j : nat) : Result bool :=
  match pq !! i, pq !! j with
  | Some (Some a), Some (Some b) => Returns (priority (h b) <? priority (h a))
  | _, _ => Panics
  end.

(** The two entries are exchanged first; then the entry now at [i] and
    the entry now at [j] get their index written, in this order. *)
Definition PriorityQueue_Swap (h : ItemHeap) (pq : PriorityQueue) (i j : nat)
  : Result (ItemHeap * PriorityQueue) :=
  match pq !! i, pq !! j with
  | Some pi, Some pj =>
      let pq' := <[j := pi]> (<[i := pj]> pq) in
      match pq' !! i, pq' !! j with
      | Some (Some a), Some (Some b) => Returns (setIndex (setIndex h a (Z.of_nat i)) b (Z.of_nat j), pq')
      | _, _ => Panics
      end
  | _, _ => Panics
  end.

(** [Push] and [Pop] have a pointer receiver: [None] is the nil pointer,
    whose dereference panics, as does the write through a nil item. *)
Definition PriorityQueue_Push (h : ItemHeap) (pq : option PriorityQueue) (x : ItemPtr)
  : Result (ItemHeap * PriorityQueue) :=
  match pq with
  | None => Panics
  | Some l =>
      match x with
      | None => Panics
      | Some a => Returns (setIndex h a (Z.of_nat (length l)), l ++ [Some a])
      end
  end.

Definition PriorityQueue_Pop (h : ItemHeap) (pq : option PriorityQueue)
  : Result (ItemHeap * ItemPtr * PriorityQueue) :=
  match pq with
  | None => Panics
  | Some old =>
      match last old with
      | None => Panics
      | Some None => Panics
      | Some (Some a) => Returns (setIndex h a (-1), Some a, removelast old)
      end
  end.

Record DefaultQueue : Type := mkDefaultQueue {
  priorityQueue : option PriorityQueue
}.

Definition NewDefaultQueue : DefaultQueue := mkDefaultQueue None.

(** Every method yields the queue afterwards, the effects of the call and
    what it returns. *)
Definition DefaultQueue_Start (q : DefaultQueue) : DefaultQueue * list Effect := (q, []).

Definition DefaultQueue_Stop (q : DefaultQueue) : DefaultQueue * list Effect := (q, []).

Definition DefaultQueue_Clear (q : DefaultQueue) : DefaultQueue * list Effect := (q, []).

Definition DefaultQueue_Send (q : DefaultQueue) : DefaultQueue * list Effect * option Error :=
  (q, [], None).

Definition DefaultQueue_Push (h : ItemHeap) (q : DefaultQueue) (i : ItemPtr)
  : Result (ItemHeap * DefaultQueue) :=
  match PriorityQueue_Push h (priorityQueue q) i with
  | Returns (h', l) => Returns (h', mkDefaultQueue (Some l))
  | Panics => Panics
  end.

Definition DefaultQueue_Pop (h : ItemHeap) (q : DefaultQueue)
  : Result (ItemHeap * ItemPtr * DefaultQueue) :=
  match PriorityQueue_Pop h (priorityQueue q) with
  | Returns (h', it, l) => Returns (h', it, mkDefaultQueue (Some l))
  | Panics => Panics
  end.

(** [Get] is [return q.Get(id)]: the body is one call of itself.  With
    [fuel] bounding the depth of calls, [None] says that the call has not
    returned within the bound, [Some r] that it returned [r]. *)
Fixpoint DefaultQueue_Get (fuel : nat) (q : DefaultQueue) (id : string) : option ItemPtr :=
  match fuel with
  | O => None
  | S fuel' => DefaultQueue_Get fuel' q id
  end.

(** The same method as a big-step relation: the only way for [q.Get(id)]
    to return [r] is for the inner [q.Get(id)] to return [r]. *)
Inductive DefaultQueue_Get_returns (q : DefaultQueue) (id : string) : ItemPtr -> Prop :=
| Get_call r : DefaultQueue_Get_returns q id r -> DefaultQueue_Get_returns q id r.

(** The calls a user of the queue can make, one for each method, and a run
    of them on the heap of items.  A panic ends the run.  [fuel] bounds
    the depth of calls inside a [Get]: a [Get] that has not returned within
    the bound leaves the run where it is, and nothing after it happens. *)
Inductive QueueCall : Type :=
| QStart
| QStop
| QClear
| QSend
| QPush (i : ItemPtr)
| QPop
| QGet (id : string).

Fixpoint runQueue (fuel : nat) (calls : list QueueCall) (h : ItemHeap) (q : DefaultQueue)
  : ItemHeap * DefaultQueue * list Effect :=
  match calls with
  | [] => (h, q, [])
  | c :: rest =>
      match c with
      | QStart => let '(q1, e) := DefaultQueue_Start q in
                  let '(h2, q2, e') := runQueue fuel rest h q1 in (h2, q2, e ++ e')
      | QStop => let '(q1, e) := DefaultQueue_Stop q in
                 let '(h2, q2, e') := runQueue fuel rest h q1 in (h2, q2, e ++ e')
      | QClear => let '(q1, e) := DefaultQueue_Clear q in
                  let '(h2, q2, e') := runQueue fuel rest h q1 in (h2, q2, e ++ e')
      | QSend => let '(q1, e, _) := DefaultQueue_Send q in
                 let '(h2, q2, e') := runQueue fuel rest h q1 in (h2, q2, e ++ e')
      | QPush i => match DefaultQueue_Push h q i with
                   | Returns (h1, q1) => runQueue fuel rest h1 q1
                   | Panics => (h, q, [Panic])
                   end
      | QPop => match DefaultQueue_Pop h q with
                | Returns (h1, _, q1) => runQueue fuel rest h1 q1
                | Panics => (h, q, [Panic])
                end
      | QGet id => match DefaultQueue_Get fuel q id with
                   | Some _ => runQueue fuel rest h q
                   | None => (h, q, [])
                   end
      end
  end.

(** ** Server state *)

(** The fields of [CoapServer] that the modelled methods read or write.
    Times are nanoseconds on the clock's axis. *)
Record CoapServer : Type := mkServer {
  messageIds : gmap Z Z;
  routes : list Route;
  observations : gmap string (list Observation);
  queue : DefaultQueue
}.

Definition withMessageIds (s : CoapServer) (ids : gmap Z Z) : CoapServer :=
  mkServer ids (routes s) (observations s) (queue s).

Definition withObservations (s : CoapServer) (o : gmap string (list Observation)) : CoapServer :=
  mkServer (messageIds s) (routes s) o (queue s).

Definition withRoutes (s : CoapServer) (rs : list Route) : CoapServer :=
  mkServer (messageIds s) rs (observations s) (queue s).

(** [NewServer], with the empty map of message IDs that [serveServer] makes
    before the first datagram is read. *)
Definition NewServer : CoapServer := mkServer ∅ [] ∅ NewDefaultQueue.

(** [add] and [NewRoute]: [route] is what [CreateNewRoute] returned. *)
Definition add (s : CoapServer) (route : Route) : CoapServer :=
  withRoutes s (routes s ++ [route]).

Section ServerDefinitions.
Context `{Collaborators}.

(** *** Observation registry ([addObservation], [hasObservation],
    [removeObservation]) *)

(** A map lookup that misses gives Go's nil slice, to which [append]
    appends as to the empty one. *)
Definition addObservation (s : CoapServer) (resource token : string) (addr : UDPAddr) : CoapServer :=
  withObservations s
    (<[resource := default [] (observations s !! resource) ++ [NewObservation addr token resource]]>
       (observations s)).

Definition samePeer (addr : UDPAddr) (o : Observation) : bool :=
  String.eqb (UDPAddr_String (Addr o)) (UDPAddr_String addr).

Definition hasObservation (s : CoapServer) (resource : string) (addr : UDPAddr) : bool :=
  match observations s !! resource with
  | None => false
  | Some obs => existsb (samePeer addr) obs
  end.

(** The position at which the loop of [removeObservation] stops. *)
Fixpoint firstPeer (addr : UDPAddr) (obs : list Observation) : option nat :=
  match obs with
  | [] => None
  | o :: rest => if samePeer addr o then Some O else S <$> firstPeer addr rest
  end.

Definition removeObservation (s : CoapServer) (resource : string) (addr : UDPAddr) : CoapServer :=
  match observations s !! resource with
  | None => s
  | Some obs =>
      match firstPeer addr obs with
      | Some idx =>
          withObservations s (<[resource := take idx obs ++ drop (S idx) obs]> (observations s))
      | None => s
      end
  end.

(** *** Message-ID purge ([handleMessageIdPurge]) *)

Definition Nanosecond : Z := 1.
Definition Second : Z := 1000000000 * Nanosecond.

Definition minDuration : Z := - 2 ^ 63.
Definition maxDuration : Z := 2 ^ 63 - 1.

(** Go's [time.Since(v)] at clock reading [now]: a [Duration], a signed
    64-bit count of nanoseconds that saturates. *)
Definition Since (now v : Z) : Z := Z.max minDuration (Z.min maxDuration (now - v)).

(** The period of the ticker: [MESSAGEID_PURGE_DURATION * time.Second]. *)
Definition purgeTickerPeriod : Z := MESSAGEID_PURGE_DURATION * Second.

(** The test of the loop body: [elapsed > MESSAGEID_PURGE_DURATION], the
    constant read as a [Duration]. *)
Definition expired (now v : Z) : bool := MESSAGEID_PURGE_DURATION <? Since now v.

(** One tick of the ticker: the loop over the map, deleting as it goes.
    The clock is read once for the whole loop. *)
Definition purgeTick (now : Z) (s : CoapServer) : CoapServer :=
  withMessageIds s (filter (fun kv => expired now (snd kv) = false) (messageIds s)).

(** *** Notifications ([NotifyChange]) *)

Definition NewRequest (t : Z) (c : CoapCode) (id : Z) : Message := NewMessage t c id.

(** Modelled from the spec: [SetRequestURI] is not among the sources; the
    spec keeps the URI in the message's URI-Path options, which the codec
    derives from the string. *)
Definition SetRequestURI (m : Message) (uri : string) : Message :=
  AddOptions m (NewPathOptions uri).

(** Go's [int] increment, wrapping at 64 bits. *)
Definition wrapInt (n : Z) : Z := (n + 2 ^ 63) mod 2 ^ 64 - 2 ^ 63.

Definition withNotifyCount (r : Observation) (n : Z) : Observation :=
  mkObservation (Addr r) (ObsToken r) (Resource r) n.

(** The loop over the observations.  [req] is the one request object all
    iterations write to, each write leaving a [WriteRequest] entry with
    the new state; an observation is reached through a pointer, so its
    incremented counter stays in the registry.  [Go (SendTo a)] is the
    statement [go c.SendTo(req, r.Addr)]: the goroutine gets the request
    object, not a copy, and sends what it holds when it runs
    ([notifications]). *)
Fixpoint notifyLoop (req : Message) (val : string) (t : list Observation)
  : list Observation * Message * list Effect :=
  match t with
  | [] => ([], req, [])
  | r :: rest =>
      let req1 := SetToken req (ObsToken r) in
      let req2 := SetStringPayload req1 val in
      let req3 := SetRequestURI req2 (Resource r) in
      let r' := withNotifyCount r (wrapInt (NotifyCount r + 1)) in
      let req4 := AddOption req3 OPTION_OBSERVE (Some (IntValue (NotifyCount r'))) in
      let '(rest', reqEnd, effs) := notifyLoop req4 val rest in
      (r' :: rest', reqEnd,
       WriteRequest req1 :: WriteRequest req2 :: WriteRequest req3 :: WriteRequest req4
       :: Go (SendTo (Addr r)) :: effs)
  end.

(** [mid] is what [GenerateMessageId()] returns. *)
Definition NotifyChange (c : CoapServer) (resource val : string) (confirm : bool) (mid : Z)
  : CoapServer * list Effect :=
  match observations c !! resource with
  | None => (c, [])
  | Some t =>
      let req := if confirm
                 then NewRequest TYPE_CONFIRMABLE COAPCODE_205_CONTENT mid
                 else NewRequest TYPE_ACKNOWLEDGEMENT COAPCODE_205_CONTENT mid in
      let '(t', _, effs) := notifyLoop req val t in
      (withObservations c (<[resource := t']> (observations c)), effs)
  end.

(** *** The dispatcher ([handleMessage]) *)

Definition supportedMethod (c : CoapCode) : bool :=
  (c =? GET) || (c =? POST) || (c =? PUT) || (c =? DELETE).

Definition NewClientRequestFromMessage (msg : Message) (attrs : list (string * string))
  (addr : UDPAddr) : CoapRequest := mkRequest msg attrs addr.

(** Lines 266-291: observe registration or cancellation.  The request
    wraps the inbound message itself, so the option added through
    [req.GetMessage()] is added to [msg]. *)
Definition observeStep (s : CoapServer) (msg : Message) (addr : UDPAddr)
  : CoapServer * Message * list Effect :=
  if MessageType msg =? TYPE_CONFIRMABLE then
    match GetOption msg OPTION_OBSERVE with
    | Some obsOpt =>
        match OptValue obsOpt with
        | None =>
            let resource := GetUriPath msg in
            let '(s', ev) :=
              if hasObservation s resource addr
              then (removeObservation s resource addr, EvObserveCancelled resource msg)
              else (addObservation s (GetUriPath msg) (Token msg) addr, EvObserve resource msg) in
            (s', AddOption msg OPTION_OBSERVE (Some (IntValue 1)), [ev])
        | Some _ => (s, msg, [])
        end
    | None => (s, msg, [])
    end
  else (s, msg, []).

(** Lines 293-304: the handler call and the response. *)
Definition respond (route : Route) (req : CoapRequest) (addr : UDPAddr) : list Effect :=
  CallHandler route req ::
  match Handler route req with
  | NilResponse => []
  | MessageResponse respMsg =>
      match ValidateMessage respMsg with
      | None => [EvMessage respMsg false; SendMessageTo respMsg addr]
      | Some _ => []
      end
  end.

(** Lines 253-305: the branch taken when the matcher reports no error.  A
    nil route panics at its first use. *)
Definition serve (s : CoapServer) (now : Z) (msg : Message) (addr : UDPAddr)
  (route : option Route) (attrs : list (string * string)) : CoapServer * list Effect :=
  let s1 := withMessageIds s (<[MessageId msg := now]> (messageIds s)) in
  match route with
  | None => (s1, [Panic])
  | Some rt =>
      let ackEffs :=
        if (MessageType msg =? TYPE_CONFIRMABLE) && AutoAck rt
        then let ack := NewMessageOfType TYPE_ACKNOWLEDGEMENT (MessageId msg) in
             [EvMessage ack false; SendMessageTo ack addr]
        else [] in
      let '(s2, msg', obsEffs) := observeStep s1 msg addr in
      let req := NewClientRequestFromMessage msg' attrs addr in
      (s2, ackEffs ++ obsEffs ++ respond rt req addr)
  end.

Definition echoed : list OptionCode := [OPTION_URI_PATH; OPTION_CONTENT_FORMAT].

(** Lines 202-305: route matching, the duplicate check, and [serve]. *)
Definition routeMessage (s : CoapServer) (now : Z) (msg : Message) (addr : UDPAddr)
  : CoapServer * list Effect :=
  let '(rt, attrs, err) :=
    MatchingRoute (GetUriPath msg) (MethodString (Code msg))
                  (GetOptions msg OPTION_CONTENT_FORMAT) (routes s) in
  match err with
  | Some ERR_NO_MATCHING_ROUTE =>
      let ret := CloneOptions (NotFoundMessage (MessageId msg) TYPE_ACKNOWLEDGEMENT) msg echoed in
      let ret := withToken ret (Token msg) in
      (s, [EvMessage ret false; SendMessageTo ret addr; EvError ERR_NO_MATCHING_ROUTE])
  | Some ERR_NO_MATCHING_METHOD =>
      let ret := CloneOptions (MethodNotAllowedMessage (MessageId msg) TYPE_ACKNOWLEDGEMENT) msg echoed in
      (s, [EvMessage ret false; SendMessageTo ret addr; EvError ERR_NO_MATCHING_METHOD])
  | Some ERR_UNSUPPORTED_CONTENT_FORMAT =>
      let ret := CloneOptions (UnsupportedContentFormatMessage (MessageId msg) TYPE_ACKNOWLEDGEMENT) msg echoed in
      (s, [EvMessage ret false; SendMessageTo ret addr; EvError ERR_UNSUPPORTED_CONTENT_FORMAT])
  | _ =>
      match messageIds s !! MessageId msg with
      | Some _ =>
          let log := LogPrintln "Duplicate Message ID " (MessageId msg) in
          if MessageType msg =? TYPE_CONFIRMABLE
          then let ret := CloneOptions (EmptyMessage (MessageId msg) TYPE_RESET) msg echoed in
               (s, [log; EvMessage ret false; SendMessageTo ret addr])
          else (s, [log])
      | None =>
          match err with
          | None => serve s now msg addr rt attrs
          | Some _ => (s, [])
          end
      end
  end.

(** Lines 193-200: the proxy branch.  [GetOption] may give nil, whose
    [StringValue()] panics. *)
Definition proxy (msg : Message) (addr : UDPAddr) : list Effect :=
  if IsCoapUri msg then [CallCoapCoapProxy msg addr]
  else match GetOption msg OPTION_PROXY_URI with
       | None => [Panic]
       | Some o => if IsHttpUri (StringValue o) then [CallCoapHttpProxy msg addr] else []
       end.

(** Lines 179-180: a decode error is reported to the event sink. *)
Definition errorEvents (err : option Error) : list Effect :=
  match err with
  | Some e => [EvError e]
  | None => []
  end.

(** [handleMessage]: [msg] and [err] are what [BytesToMessage] returned
    for the datagram, [addr] its sender, [now] what [time.Now()] would
    return.  The result is the server afterwards and the effects in
    program order. *)
Definition handleMessage (s : CoapServer) (now : Z) (msg : Message) (err : option Error)
  (addr : UDPAddr) : CoapServer * list Effect :=
  let received := EvMessage msg true in
  if MessageType msg =? TYPE_ACKNOWLEDGEMENT then
    match GetOption msg OPTION_OBSERVE with
    | Some _ => (s, [received; EvNotify (GetUriPath msg) (Payload msg) msg])
    | None => (s, [received])
    end
  else if MessageType msg =? TYPE_RESET then (s, [received])
  else if negb (supportedMethod (Code msg)) then
    let resp := CloneOptions (NotImplementedMessage (MessageId msg) TYPE_ACKNOWLEDGEMENT) msg echoed in
    (s, [received; EvMessage resp false; SendMessageTo resp addr])
  else
    let errEffs := errorEvents err in
    match err with
    | Some ERR_UNKNOWN_CRITICAL_OPTION =>
        if MessageType msg =? TYPE_CONFIRMABLE
        then (s, received :: errEffs ++
                 [SendMessageTo (BadOptionMessage (MessageId msg) TYPE_ACKNOWLEDGEMENT) addr])
        else (s, received :: errEffs)
    | _ =>
        if IsProxyRequest msg
        then (s, received :: errEffs ++ proxy msg addr)
        else let '(s', effs) := routeMessage s now msg addr in
             (s', received :: errEffs ++ effs)
    end.

(** A message that is neither an Acknowledgement nor a Reset, has a
    supported method code, decoded without an unknown critical option and is
    not a proxy request reaches route matching. *)
Definition reachesRouting (msg : Message) (err : option Error) : Prop :=
  MessageType msg <> TYPE_ACKNOWLEDGEMENT /\
  MessageType msg <> TYPE_RESET /\
  supportedMethod (Code msg) = true /\
  err <> Some ERR_UNKNOWN_CRITICAL_OPTION /\
  IsProxyRequest msg = false.

(** What the matcher answers for a message: the route, the path
    attributes and the error. *)
Definition matched (s : CoapServer) (msg : Message)
  : option Route * list (string * string) * option Error :=
  MatchingRoute (GetUriPath msg) (MethodString (Code msg))
                (GetOptions msg OPTION_CONTENT_FORMAT) (routes s).

Definition matchedRoute (s : CoapServer) (msg : Message) : option Route :=
  fst (fst (matched s msg)).

Definition matchedAttributes (s : CoapServer) (msg : Message) : list (string * string) :=
  snd (fst (matched s msg)).

Definition matchError (s : CoapServer) (msg : Message) : option Error :=
  snd (matched s msg).

(** The three matcher errors that [handleMessage] answers itself, before
    the duplicate check. *)
Definition refused (e : option Error) : bool :=
  match e with
  | Some ERR_NO_MATCHING_ROUTE
  | Some ERR_NO_MATCHING_METHOD
  | Some ERR_UNSUPPORTED_CONTENT_FORMAT => true
  | _ => false
  end.

(** The registry invariant: under one resource no two observations have
    the same peer address. *)
Definition uniqueObservations (s : CoapServer) : Prop :=
  forall (resource : string) (obs : list Observation),
    observations s !! resource = Some obs ->
    NoDup ((fun o => UDPAddr_String (Addr o)) <$> obs).

(** The number of observations of a resource. *)
Definition observers (s : CoapServer) (resource : string) : nat :=
  length (default [] (observations s !! resource)).

End ServerDefinitions.

(** ** Sample collaborators and inputs

    One implementation of the collaborators, small enough to evaluate: an
    address is rendered as dotted numbers and a port, a path is the
    URI-Path values joined by slashes, the matcher compares paths and
    methods for equality and scans the routes in order, every response
    validates, and the purge constant is 60. *)

Definition sample_String (a : UDPAddr) : string :=
  String.concat "." (map pretty (IP a)) ++ ":" ++ pretty (Port a).

Definition sample_StringValue (o : CoapOption) : string :=
  match OptValue o with
  | Some (StrValue s) => s
  | Some (IntValue n) => pretty n
  | None => EmptyString
  end.

Definition sample_GetUriPath (m : Message) : string :=
  String.concat "/" (map sample_StringValue (GetOptions m OPTION_URI_PATH)).

Definition sample_NewPathOptions (uri : string) : list CoapOption :=
  [mkOption OPTION_URI_PATH (Some (StrValue uri))].

Definition sample_MethodString (c : CoapCode) : string :=
  if c =? GET then "GET"
  else if c =? POST then "POST"
  else if c =? PUT then "PUT"
  else if c =? DELETE then "DELETE"
  else EmptyString.

Definition sample_IsProxyRequest (m : Message) : bool :=
  match GetOption m OPTION_PROXY_URI with Some _ => true | None => false end.

Definition sample_IsHttpUri (u : string) : bool := String.prefix "http" u.

Definition sample_IsCoapUri (m : Message) : bool :=
  match GetOption m OPTION_PROXY_URI with
  | Some o => String.prefix "coap" (sample_StringValue o)
  | None => false
  end.

Definition sample_formatOk (cf : list CoapOption) (r : Route) : bool :=
  match MediaTypes r, cf with
  | [], _ => true
  | _, [] => true
  | mts, o :: _ =>
      match OptValue o with
      | Some (IntValue n) => existsb (Z.eqb n) mts
      | _ => false
      end
  end.

Definition sample_MatchingRoute (path method : string) (cf : list CoapOption)
  (rs : list Route) : option Route * list (string * string) * option Error :=
  match List.filter (fun r => String.eqb (Path r) path) rs with
  | [] => (None, [], Some ERR_NO_MATCHING_ROUTE)
  | onPath =>
      match List.filter (fun r => String.eqb (Method r) method) onPath with
      | [] => (None, [], Some ERR_NO_MATCHING_METHOD)
      | r :: _ =>
          if sample_formatOk cf r then (Some r, [], None)
          else (None, [], Some ERR_UNSUPPORTED_CONTENT_FORMAT)
      end
  end.

Definition sample : Collaborators := {|
  UDPAddr_String := sample_String;
  GetUriPath := sample_GetUriPath;
  NewPathOptions := sample_NewPathOptions;
  MethodString := sample_MethodString;
  IsProxyRequest := sample_IsProxyRequest;
  IsCoapUri := sample_IsCoapUri;
  IsHttpUri := sample_IsHttpUri;
  StringValue := sample_StringValue;
  MatchingRoute := sample_MatchingRoute;
  ValidateMessage := fun _ => None;
  MESSAGEID_PURGE_DURATION := 60
|}.

Definition peerA : UDPAddr := mkUDPAddr [10; 0; 0; 1] 40001 EmptyString.
Definition peerB : UDPAddr := mkUDPAddr [10; 0; 0; 2] 40002 EmptyString.

Definition pathOption (seg : string) : CoapOption :=
  mkOption OPTION_URI_PATH (Some (StrValue seg)).

(** A handler answering with a 2.05 acknowledgement that copies the
    request's token and Observe options. *)
Definition tempHandler (req : CoapRequest) : CoapResponse :=
  let m := reqMessage req in
  MessageResponse
    (withPayload
       (CloneOptions (withToken (NewMessage TYPE_ACKNOWLEDGEMENT COAPCODE_205_CONTENT (MessageId m))
                                (Token m))
                     m [OPTION_OBSERVE])
       (Some "21.5"%string)).

Definition tempRoute : Route := mkRoute "temp" "GET" [] true tempHandler.

Definition tempServer : CoapServer := mkServer ∅ [tempRoute] ∅ NewDefaultQueue.

(** A request for [/temp] of the given type, code, message ID and token,
    followed by further options. *)
Definition tempRequest (t : Z) (c : CoapCode) (id : Z) (tok : string)
  (more : list CoapOption) : Message :=
  mkMessage t c id tok (pathOption "temp" :: more) None.

Definition observeOption : CoapOption := mkOption OPTION_OBSERVE None.

(** An item for a delivery of message 7; a heap in which address 2 holds
    that item with index 1 and every other address holds it with index 0;
    a queue whose one entry points to address 1, and a server owning it. *)
Definition pendingItem : Item :=
  mkItem (mkRequest (NewMessage TYPE_CONFIRMABLE COAPCODE_205_CONTENT 7) [] peerA) 0 0 0 None.

Definition pendingHeap : ItemHeap :=
  fun a => if Nat.eqb a 2 then withIndex pendingItem 1 else pendingItem.

Definition pendingQueue : DefaultQueue := mkDefaultQueue (Some [Some 1%nat]).

Definition pendingServer : CoapServer := mkServer ∅ [tempRoute] ∅ pendingQueue.

(** The calls that could drive a retransmission: they take no item and
    return none. *)
Definition isDriverCall (c : QueueCall) : bool :=
  match c with
  | QStart | QStop | QClear | QSend => true
  | QPush _ | QPop | QGet _ => false
  end.

(** The message IDs of the items a queue points to. *)
Definition pendingIds (h : ItemHeap) (q : DefaultQueue) : list Z :=
  match priorityQueue q with
  | None => []
  | Some l => map (fun a => MessageId (reqMessage (value (h a)))) (omap id l)
  end.

(** A server that saw message 42 at second 59 of the clock. *)
Definition agedServer : CoapServer :=
  mkServer {[42 := 59 * Second]} [tempRoute] ∅ NewDefaultQueue.

(** A server on which [peerA] observes [temp], having been notified three
    times. *)
Definition observedServer : CoapServer :=
  mkServer ∅ [tempRoute] {["temp"%string := [mkObservation peerA "tk" "temp" 3]]} NewDefaultQueue.

(** The counter of an observation can be incremented without wrapping. *)
Definition countInRange (o : Observation) : Prop :=
  - 2 ^ 63 <= NotifyCount o < 2 ^ 63 - 1.

(** The observation after one notification. *)
Definition notifiedOnce (o : Observation) : Observation :=
  withNotifyCount o (NotifyCount o + 1).

(** The Observe option with sequence number [n]. *)
Definition observeSequence (n : Z) : CoapOption :=
  mkOption OPTION_OBSERVE (Some (IntValue n)).

(** [m] is a notification for observer [o]: a message of type [ty] and ID
    [mid] with the payload, containing the Observe option with the
    observer's counter plus one. *)
Definition carriesNotification (val : string) (ty mid : Z) (o : Observation) (m : Message)
  : Prop :=
  MessageType m = ty /\
  MessageId m = mid /\
  Payload m = Some val /\
  In (observeSequence (NotifyCount o + 1)) (Options m).

(** [g], the address and the readable request states of one goroutine's
    send, notifies observer [o]: the send goes to the observer, and
    whatever state of the request it reads is a notification for [o]. *)
Definition notifies (val : string) (ty mid : Z) (o : Observation)
  (g : UDPAddr * list Message) : Prop :=
  fst g = Addr o /\
  snd g <> [] /\
  Forall (carriesNotification val ty mid o) (snd g).

(** The sends [gs] notify the observers [t] one by one, and the token a
    send can read is the token of its observer or of an observer further
    down the list. *)
Fixpoint notifiesInTurn (val : string) (ty mid : Z) (t : list Observation)
  (gs : list (UDPAddr * list Message)) : Prop :=
  match t, gs with
  | [], [] => True
  | o :: rest, g :: gs' =>
      notifies val ty mid o g /\
      Forall (fun m => In (Token m) (map ObsToken (o :: rest))) (snd g) /\
      notifiesInTurn val ty mid rest gs'
  | _, _ => False
  end.

(** A server on which [peerA] and [peerB] observe [temp]. *)
Definition twoObservers : CoapServer :=
  mkServer ∅ [tempRoute]
    {["temp"%string := [mkObservation peerA "tkA" "temp" 3; mkObservation peerB "tkB" "temp" 8]]}
    (mkDefaultQueue (Some [])).

(** A server that has message 1234 on record and no route. *)
Definition seenServer : CoapServer := mkServer {[1234 := 0]} [] ∅ NewDefaultQueue.

(** A server that has message 1234 on record and the route for [temp]. *)
Definition seenTempServer : CoapServer := mkServer {[1234 := 0]} [tempRoute] ∅ NewDefaultQueue.

(** Sample messages: requests for [temp] with message ID 1234 and token
    ["tk"], and a Reset for message 7. *)
Definition getTemp : Message := tempRequest TYPE_CONFIRMABLE GET 1234 "tk" [].
Definition getTempNon : Message := tempRequest TYPE_NONCONFIRMABLE GET 1234 "tk" [].
Definition putTemp : Message := tempRequest TYPE_CONFIRMABLE PUT 1234 "tk" [].
Definition observeTemp : Message := tempRequest TYPE_CONFIRMABLE GET 1234 "tk" [observeOption].
Definition observeTempNon : Message :=
  tempRequest TYPE_NONCONFIRMABLE GET 1234 "tk" [observeOption].
Definition resetSeven : Message := NewMessage TYPE_RESET COAPCODE_0_EMPTY 7.
Definition getTemp42 : Message := tempRequest TYPE_CONFIRMABLE GET 42 "tk" [].

(** ** Further definitions: the queue *)

(** Every item's [index] field is its position in the queue: what [Push]
    and [Swap] are written to keep. *)
Definition wellIndexed (h : ItemHeap) (pq : list ItemPtr) : Prop :=
  forall (i a : nat), pq !! i = Some (Some a) -> index (h a) = Z.of_nat i.

(** ** Further definitions: the dispatcher *)

(** What the trace of one dispatcher call for [msg] from [addr] looks
    like from outside: every datagram goes back to the sender, there are at
    most two of them and at most one handler call, nothing is handed to a
    goroutine, and as long as no handler ran there is at most one datagram
    and it carries the message ID of [msg]. *)
Definition answers (msg : Message) (addr : UDPAddr) (tr : list Effect) : Prop :=
  Forall (fun p => snd p = addr) (sent tr) /\
  (length (sent tr) <= 2)%nat /\
  (length (handlerCalls tr) <= 1)%nat /\
  spawned tr = [] /\
  (handlerCalls tr = [] ->
     (length (sent tr) <= 1)%nat /\
     Forall (fun p => MessageId (fst p) = MessageId msg) (sent tr)).

(** The test of lines 266-271: a Confirmable message whose first Observe
    option has no value. *)
Definition isObserveRequest (msg : Message) : bool :=
  (MessageType msg =? TYPE_CONFIRMABLE) &&
  match GetOption msg OPTION_OBSERVE with
  | Some o => match OptValue o with None => true | Some _ => false end
  | None => false
  end.

(** ** Further definitions: notifications *)

(** The counter of an observation can be incremented twice without
    wrapping. *)
Definition countInRange2 (o : Observation) : Prop :=
  - 2 ^ 63 <= NotifyCount o < 2 ^ 63 - 2.

(** What identifies an observation: everything but its counter. *)
Definition subscription (o : Observation) : UDPAddr * string * string :=
  (Addr o, ObsToken o, Resource o).

(** ** Further definitions: the discovery route ([Start]) *)

(** Modelled from the spec: [ContentMessage], a message with status 2.05
    of the given message ID and type. *)
Definition ContentMessage (id : Z) (t : Z) : Message :=
  NewMessage t COAPCODE_205_CONTENT id.

(** Modelled from the spec: the content format of a "link-format
    payload". *)
Definition MEDIATYPE_APPLICATION_LINK_FORMAT : Z := 40.

Section Discovery.

(** Go's [strconv.Itoa]. *)
Variable Itoa : Z -> string.

(** The inner loop of lines 75-81 at index [idx]: the media type, and a
    space unless it is the last of the [lenMt]. *)
Fixpoint writeMediaTypes (lenMt idx : nat) (mts : list Z) : string :=
  match mts with
  | [] => EmptyString
  | mt :: rest =>
      Itoa mt +:+ (if (idx + 1 <? lenMt)%nat then " " else EmptyString)
      +:+ writeMediaTypes lenMt (S idx) rest
  end.

(** What one iteration of the loop of lines 65-87 writes to the buffer. *)
Definition writeRoute (r : Route) : string :=
  if String.eqb (Path r) ".well-known/core" then EmptyString
  else "</" +:+ Path r +:+ ">"
       +:+ (if (0 <? length (MediaTypes r))%nat
            then ";ct=" +:+ writeMediaTypes (length (MediaTypes r)) 0 (MediaTypes r)
            else EmptyString)
       +:+ ",".

(** The buffer after the loop over the routes. *)
Definition discoveryPayload (rs : list Route) : string :=
  fold_left (fun buf r => buf +:+ writeRoute r) rs EmptyString.

(** The handler [discoveryRoute]; [rs] is [s.routes] at the time of the
    call.  [NewPlainTextPayload] and [NewResponseWithMessage] wrap the
    string and the message. *)
Definition discoveryRoute (rs : list Route) (req : CoapRequest) : CoapResponse :=
  let msg := reqMessage req in
  let ack := AddOption (ContentMessage (MessageId msg) TYPE_ACKNOWLEDGEMENT)
                       OPTION_CONTENT_FORMAT
                       (Some (IntValue MEDIATYPE_APPLICATION_LINK_FORMAT)) in
  MessageResponse (withPayload ack (Some (discoveryPayload rs))).

(** One entry of the link-format payload, as a reader of the payload sees
    it. *)
Definition linkEntry (r : Route) : string :=
  "</" +:+ Path r +:+ ">"
  +:+ match MediaTypes r with
      | [] => EmptyString
      | mts => ";ct=" +:+ String.concat " " (map Itoa mts)
      end
  +:+ ",".

End Discovery.

(** ** Further definitions: proxy handlers ([SetProxy]) *)

Definition PROXY_COAP_HTTP : Z := 0.
Definition PROXY_COAP_COAP : Z := 1.

(** The two handlers a proxy field is ever set to. *)
Inductive ProxyHandler : Type :=
| NullProxyHandler
| CoapHttpProxyHandler.

(** The two proxy fields of [CoapServer]. *)
Record ProxyHandlers : Type := mkProxyHandlers {
  fnHandleCoapHttpProxy : ProxyHandler;
  fnHandleCoapCoapProxy : ProxyHandler
}.

(** The proxy fields as [NewServer] sets them. *)
Definition NewServer_proxies : ProxyHandlers :=
  mkProxyHandlers NullProxyHandler NullProxyHandler.

Definition SetProxy (s : ProxyHandlers) (t : Z) (enabled : bool) : ProxyHandlers :=
  if t =? PROXY_COAP_HTTP then
    if enabled
    then mkProxyHandlers CoapHttpProxyHandler (fnHandleCoapCoapProxy s)
    else mkProxyHandlers NullProxyHandler (fnHandleCoapCoapProxy s)
  else if t =? PROXY_COAP_COAP then
    if enabled
    then mkProxyHandlers (fnHandleCoapHttpProxy s) CoapHttpProxyHandler
    else mkProxyHandlers (fnHandleCoapHttpProxy s) NullProxyHandler
  else s.

(** ** Further sample inputs *)

(** A matcher that fails with an error of its own, and the collaborators
    of [sample] around it. *)
Definition failing : Collaborators := {|
  UDPAddr_String := sample_String;
  GetUriPath := sample_GetUriPath;
  NewPathOptions := sample_NewPathOptions;
  MethodString := sample_MethodString;
  IsProxyRequest := sample_IsProxyRequest;
  IsCoapUri := sample_IsCoapUri;
  IsHttpUri := sample_IsHttpUri;
  StringValue := sample_StringValue;
  MatchingRoute := fun _ _ _ _ => (None, [], Some (ERR_OTHER "bad pattern"));
  ValidateMessage := fun _ => None;
  MESSAGEID_PURGE_DURATION := 60
|}.

(** The confirmation of a notification: an Acknowledgement with an
    Observe option. *)
Definition ackObserve : Message :=
  mkMessage TYPE_ACKNOWLEDGEMENT COAPCODE_205_CONTENT 77 "tk"
            [pathOption "temp"; mkOption OPTION_OBSERVE (Some (IntValue 4))] (Some "21.5"%string).

(** A Confirmable request with a code that is no supported method. *)
Definition fetchTemp : Message := tempRequest TYPE_CONFIRMABLE 5 1234 "tk" [].

(** A Confirmable GET with a Proxy-URI option. *)
Definition proxyTemp : Message :=
  tempRequest TYPE_CONFIRMABLE GET 1234 "tk"
              [mkOption OPTION_PROXY_URI (Some (StrValue "http://example.org/temp"))].

(** A queue of two pointers; in [pendingHeap] the indices of the items
    they point to are their positions. *)
Definition twoItems : list ItemPtr := [Some 1%nat; Some 2%nat].

(** * Properties *)

(** ** The delivery queue *)

Lemma DefaultQueue_Get_returns_empty (q : DefaultQueue) (id : string) (r : ItemPtr) :
  DefaultQueue_Get_returns q id r -> False.
Proof. induction 1; assumption. Qed.

(** C10: [q.Get(id)] never returns: at every bound on the depth of calls
    the call is still running.  The body of [Get] is a call of [Get]
    itself on the same arguments. *)
Theorem DefaultQueue_Get_diverges :
  forall (fuel : nat) (q : DefaultQueue) (id : string), DefaultQueue_Get fuel q id = None.
Proof.
  induction fuel as [|fuel IH]; intros q id; simpl.
  - reflexivity.
  - apply IH.
Qed.

(** The queue of a new server has a nil [priorityQueue]: the first [Push]
    panics, and so does a [Pop]. *)
Lemma NewDefaultQueue_Push_panics (h : ItemHeap) (i : ItemPtr) :
  DefaultQueue_Push h NewDefaultQueue i = Panics /\ DefaultQueue_Pop h NewDefaultQueue = Panics.
Proof. split; reflexivity. Qed.

Lemma runQueue_no_send (fuel : nat) (calls : list QueueCall) :
  forall h q, sent (snd (runQueue fuel calls h q)) = [] /\
              spawned (snd (runQueue fuel calls h q)) = [].
Proof.
  induction calls as [|c rest IH]; intros h q; simpl; [auto|].
  destruct c; simpl;
    try (destruct (runQueue fuel rest h q) as [[h2 q2] e'] eqn:E; specialize (IH h q);
         rewrite E in IH; exact IH).
  - destruct (DefaultQueue_Push h q i) as [[h1 q1]|]; [apply IH | simpl; auto].
  - destruct (DefaultQueue_Pop h q) as [[[h1 it] q1]|]; [apply IH | simpl; auto].
  - destruct (DefaultQueue_Get fuel q id); [apply IH | simpl; auto].
Qed.

Lemma runQueue_only_panics (fuel : nat) (calls : list QueueCall) :
  forall h q, Forall (fun e => e = Panic) (snd (runQueue fuel calls h q)).
Proof.
  induction calls as [|c rest IH]; intros h q; simpl; [constructor|].
  destruct c; simpl;
    try (destruct (runQueue fuel rest h q) as [[h2 q2] e'] eqn:E; specialize (IH h q);
         rewrite E in IH; exact IH).
  - destruct (DefaultQueue_Push h q i) as [[h1 q1]|]; [apply IH | repeat constructor].
  - destruct (DefaultQueue_Pop h q) as [[[h1 it] q1]|]; [apply IH | repeat constructor].
  - destruct (DefaultQueue_Get fuel q id); [apply IH | constructor].
Qed.

Lemma runQueue_driver_calls (fuel : nat) (calls : list QueueCall) :
  forall h q, forallb isDriverCall calls = true -> runQueue fuel calls h q = (h, q, []).
Proof.
  induction calls as [|c rest IH]; intros h q Hd; simpl in *; [reflexivity|].
  apply andb_true_iff in Hd as [Hc Hrest].
  destruct c; simpl in Hc; try discriminate; simpl; rewrite (IH h q Hrest); reflexivity.
Qed.

(** C6 does not hold of the code: the queue has no retry mechanism.  No
    run of calls of its methods, [Get] included, hands a message to the
    transport, directly or through a goroutine, or fires an event: the
    only effect a run can have is the panic of a [Push] or [Pop], and
    [Send] reports no error.  So for the queue pointing to the one item
    for message 7, a run of [Start], three [Send]s and [Stop] makes no
    send attempt and fires no timeout, and leaves the queue and the item
    as they were. *)
Theorem DefaultQueue_never_retries :
  (forall (fuel : nat) (calls : list QueueCall) (h : ItemHeap) (q : DefaultQueue),
     sent (snd (runQueue fuel calls h q)) = [] /\
     spawned (snd (runQueue fuel calls h q)) = [] /\
     Forall (fun e => e = Panic) (snd (runQueue fuel calls h q))) /\
  (forall q : DefaultQueue, DefaultQueue_Send q = (q, [], None)) /\
  pendingIds pendingHeap pendingQueue = [7] /\
  (forall fuel : nat,
     runQueue fuel [QStart; QSend; QSend; QSend; QStop] pendingHeap pendingQueue
     = (pendingHeap, pendingQueue, [])).
Proof.
  split; [|split; [|split]].
  - intros fuel calls h q.
    destruct (runQueue_no_send fuel calls h q) as [Hs Hg].
    split; [exact Hs|]. split; [exact Hg|]. apply runQueue_only_panics.
  - reflexivity.
  - reflexivity.
  - intros fuel. apply runQueue_driver_calls. reflexivity.
Qed.

(** ** Traces and messages *)

Lemma sent_app (a b : list Effect) : sent (a ++ b) = sent a ++ sent b.
Proof.
  induction a as [|e a IH]; simpl; [reflexivity|].
  destruct e; simpl; rewrite ?IH; reflexivity.
Qed.

Lemma handlerCalls_app (a b : list Effect) :
  handlerCalls (a ++ b) = handlerCalls a ++ handlerCalls b.
Proof.
  induction a as [|e a IH]; simpl; [reflexivity|].
  destruct e; simpl; rewrite ?IH; reflexivity.
Qed.

Lemma sent_errorEvents (err : option Error) : sent (errorEvents err) = [].
Proof. destruct err; reflexivity. Qed.

Lemma handlerCalls_errorEvents (err : option Error) : handlerCalls (errorEvents err) = [].
Proof. destruct err; reflexivity. Qed.

Lemma CloneOptions_Options (codes : list OptionCode) :
  forall m cm, Options (CloneOptions m cm codes)
               = Options m ++ concat (map (GetOptions cm) codes).
Proof.
  unfold CloneOptions.
  induction codes as [|c codes IH]; intros m cm; simpl.
  - symmetry. apply app_nil_r.
  - rewrite IH. simpl. rewrite <- app_assoc. reflexivity.
Qed.

Lemma CloneOptions_header (codes : list OptionCode) :
  forall m cm,
    MessageType (CloneOptions m cm codes) = MessageType m /\
    Code (CloneOptions m cm codes) = Code m /\
    MessageId (CloneOptions m cm codes) = MessageId m /\
    Token (CloneOptions m cm codes) = Token m /\
    Payload (CloneOptions m cm codes) = Payload m.
Proof.
  unfold CloneOptions.
  induction codes as [|c codes IH]; intros m cm; simpl.
  - repeat split.
  - apply (IH (AddOptions m (GetOptions cm c)) cm).
Qed.

Lemma filter_code_same (c : OptionCode) (l : list CoapOption) :
  List.filter (fun o => OptCode o =? c) (List.filter (fun o => OptCode o =? c) l)
  = List.filter (fun o => OptCode o =? c) l.
Proof.
  induction l as [|o l IH]; simpl; [reflexivity|].
  destruct (OptCode o =? c) eqn:E; simpl; rewrite ?E, IH; reflexivity.
Qed.

Lemma filter_code_other (c d : OptionCode) (l : list CoapOption) :
  c <> d ->
  List.filter (fun o => OptCode o =? c) (List.filter (fun o => OptCode o =? d) l) = [].
Proof.
  intros Hcd. induction l as [|o l IH]; simpl; [reflexivity|].
  destruct (OptCode o =? d) eqn:E; simpl; [|exact IH].
  apply Z.eqb_eq in E.
  destruct (OptCode o =? c) eqn:E'; [apply Z.eqb_eq in E'; congruence | exact IH].
Qed.

(** What an error reply echoes: the URI-Path options of the request, in
    order, and nothing else under that number. *)
Lemma echoed_UriPath (id t : Z) (c : CoapCode) (msg : Message) :
  GetOptions (CloneOptions (NewMessage t c id) msg echoed) OPTION_URI_PATH
  = GetOptions msg OPTION_URI_PATH.
Proof.
  unfold GetOptions at 1. rewrite CloneOptions_Options. simpl.
  rewrite !List.filter_app. unfold GetOptions.
  rewrite filter_code_same, filter_code_other by discriminate.
  simpl. apply app_nil_r.
Qed.

Section ServerProperties.
Context `{Collaborators}.

(** ** The dispatcher: which branch a message takes *)

Lemma handleMessage_routes (s : CoapServer) (now : Z) (msg : Message)
  (err : option Error) (addr : UDPAddr) :
  reachesRouting msg err ->
  handleMessage s now msg err addr
  = (fst (routeMessage s now msg addr),
     EvMessage msg true :: errorEvents err ++ snd (routeMessage s now msg addr)).
Proof.
  intros (Hack & Hrst & Hm & Herr & Hp).
  unfold handleMessage.
  apply Z.eqb_neq in Hack. apply Z.eqb_neq in Hrst.
  rewrite Hack, Hrst, Hm, Hp. simpl.
  destruct (routeMessage s now msg addr) as [s' effs].
  destruct err as [[| | | |w]|]; try reflexivity.
  congruence.
Qed.

Lemma routeMessage_not_found (s : CoapServer) (now : Z) (msg : Message) (addr : UDPAddr) :
  matchError s msg = Some ERR_NO_MATCHING_ROUTE ->
  routeMessage s now msg addr
  = (s, let ret := withToken
                     (CloneOptions (NotFoundMessage (MessageId msg) TYPE_ACKNOWLEDGEMENT) msg echoed)
                     (Token msg) in
        [EvMessage ret false; SendMessageTo ret addr; EvError ERR_NO_MATCHING_ROUTE]).
Proof.
  unfold matchError, matched, routeMessage. intros He.
  destruct (MatchingRoute _ _ _ _) as [[rt attrs] e]. simpl in He. subst e. reflexivity.
Qed.

Lemma routeMessage_method_not_allowed (s : CoapServer) (now : Z) (msg : Message)
  (addr : UDPAddr) :
  matchError s msg = Some ERR_NO_MATCHING_METHOD ->
  routeMessage s now msg addr
  = (s, let ret := CloneOptions (MethodNotAllowedMessage (MessageId msg) TYPE_ACKNOWLEDGEMENT)
                                msg echoed in
        [EvMessage ret false; SendMessageTo ret addr; EvError ERR_NO_MATCHING_METHOD]).
Proof.
  unfold matchError, matched, routeMessage. intros He.
  destruct (MatchingRoute _ _ _ _) as [[rt attrs] e]. simpl in He. subst e. reflexivity.
Qed.

Lemma routeMessage_duplicate (s : CoapServer) (now : Z) (msg : Message) (addr : UDPAddr)
  (seen : Z) :
  refused (matchError s msg) = false ->
  messageIds s !! MessageId msg = Some seen ->
  routeMessage s now msg addr
  = (s, LogPrintln "Duplicate Message ID " (MessageId msg) ::
        if MessageType msg =? TYPE_CONFIRMABLE
        then let ret := CloneOptions (EmptyMessage (MessageId msg) TYPE_RESET) msg echoed in
             [EvMessage ret false; SendMessageTo ret addr]
        else []).
Proof.
  unfold matchError, matched, routeMessage. intros He Hseen.
  destruct (MatchingRoute _ _ _ _) as [[rt attrs] e]. simpl in He.
  destruct e as [[| | | |w]|]; try discriminate He; rewrite Hseen;
    destruct (MessageType msg =? TYPE_CONFIRMABLE); reflexivity.
Qed.

Lemma routeMessage_serves (s : CoapServer) (now : Z) (msg : Message) (addr : UDPAddr) :
  matchError s msg = None ->
  messageIds s !! MessageId msg = None ->
  routeMessage s now msg addr
  = serve s now msg addr (matchedRoute s msg) (matchedAttributes s msg).
Proof.
  unfold matchError, matchedRoute, matchedAttributes, matched, routeMessage. intros He Hnew.
  destruct (MatchingRoute _ _ _ _) as [[rt attrs] e]. simpl in *. subst e.
  rewrite Hnew. reflexivity.
Qed.

(** ** Reset messages *)

(** C7, as the code has it: an inbound Reset is reported to the event sink
    and nothing else happens.  Nothing is sent, no handler is called, and
    the server, with its queue and whatever that holds under the same
    message ID, stays as it was. *)
Theorem handleMessage_Reset :
  forall (s : CoapServer) (now : Z) (msg : Message) (err : option Error) (addr : UDPAddr),
    MessageType msg = TYPE_RESET ->
    handleMessage s now msg err addr = (s, [EvMessage msg true]) /\
    sent (snd (handleMessage s now msg err addr)) = [] /\
    handlerCalls (snd (handleMessage s now msg err addr)) = [] /\
    queue (fst (handleMessage s now msg err addr)) = queue s.
Proof.
  intros s now msg err addr Ht.
  assert (E : handleMessage s now msg err addr = (s, [EvMessage msg true])).
  { unfold handleMessage. rewrite Ht. reflexivity. }
  rewrite E. repeat split.
Qed.

(** ** Duplicates *)

(** C1, as the code has it: the duplicate check is reached by the messages
    that reach route matching and that the matcher does not refuse.  For
    such a message with a tracked ID no handler is called and the server is
    unchanged; a Confirmable one is answered by exactly one message, a
    Reset with the same message ID, and any other one by nothing. *)
Theorem duplicate_yields_Reset_or_silence :
  forall (s : CoapServer) (now : Z) (msg : Message) (err : option Error) (addr : UDPAddr)
         (seen : Z),
    reachesRouting msg err ->
    refused (matchError s msg) = false ->
    messageIds s !! MessageId msg = Some seen ->
    fst (handleMessage s now msg err addr) = s /\
    handlerCalls (snd (handleMessage s now msg err addr)) = [] /\
    (MessageType msg = TYPE_CONFIRMABLE ->
       exists ret, sent (snd (handleMessage s now msg err addr)) = [(ret, addr)] /\
                   MessageType ret = TYPE_RESET /\
                   MessageId ret = MessageId msg) /\
    (MessageType msg <> TYPE_CONFIRMABLE ->
       sent (snd (handleMessage s now msg err addr)) = []).
Proof.
  intros s now msg err addr seen Hr Hm Hseen.
  rewrite (handleMessage_routes _ _ _ _ _ Hr).
  rewrite (routeMessage_duplicate _ _ _ _ _ Hm Hseen).
  cbn [fst snd sent handlerCalls].
  rewrite sent_app, handlerCalls_app, sent_errorEvents, handlerCalls_errorEvents.
  split; [reflexivity|].
  split; [destruct (MessageType msg =? TYPE_CONFIRMABLE); reflexivity|].
  split.
  - intros Hc. rewrite Hc. cbn.
    eexists. split; [reflexivity|].
    destruct (CloneOptions_header echoed (EmptyMessage (MessageId msg) TYPE_RESET) msg)
      as (Ht & _ & Hi & _).
    split; [exact Ht | exact Hi].
  - intros Hn. apply Z.eqb_neq in Hn. rewrite Hn. reflexivity.
Qed.

(** ** Requests without a route *)

(** C2, as the code has it: a Confirmable GET that reaches route matching
    and whose path matches no route is answered by exactly one message, a
    "not found" Acknowledgement with the request's message ID and token
    and the request's URI-Path options.  No handler is called, and the
    server, its set of message IDs included, is left as it was: the ID is
    not recorded. *)
Theorem unrouted_GET_not_found :
  forall (s : CoapServer) (now : Z) (msg : Message) (err : option Error) (addr : UDPAddr),
    MessageType msg = TYPE_CONFIRMABLE ->
    Code msg = GET ->
    err <> Some ERR_UNKNOWN_CRITICAL_OPTION ->
    IsProxyRequest msg = false ->
    matchError s msg = Some ERR_NO_MATCHING_ROUTE ->
    fst (handleMessage s now msg err addr) = s /\
    handlerCalls (snd (handleMessage s now msg err addr)) = [] /\
    exists ret,
      sent (snd (handleMessage s now msg err addr)) = [(ret, addr)] /\
      MessageType ret = TYPE_ACKNOWLEDGEMENT /\
      Code ret = COAPCODE_404_NOT_FOUND /\
      MessageId ret = MessageId msg /\
      Token ret = Token msg /\
      GetOptions ret OPTION_URI_PATH = GetOptions msg OPTION_URI_PATH.
Proof.
  intros s now msg err addr Ht Hc Herr Hp Hm.
  assert (Hr : reachesRouting msg err).
  { unfold reachesRouting. rewrite Ht, Hc. repeat split; try assumption; discriminate. }
  rewrite (handleMessage_routes _ _ _ _ _ Hr), (routeMessage_not_found _ _ _ _ Hm).
  cbn [fst snd sent handlerCalls].
  rewrite sent_app, handlerCalls_app, sent_errorEvents, handlerCalls_errorEvents.
  split; [reflexivity|]. split; [reflexivity|].
  eexists. split; [reflexivity|].
  destruct (CloneOptions_header echoed (NotFoundMessage (MessageId msg) TYPE_ACKNOWLEDGEMENT) msg)
    as (Hty & Hco & Hid & _).
  cbn. repeat split; try assumption.
  apply (echoed_UriPath (MessageId msg) TYPE_ACKNOWLEDGEMENT COAPCODE_404_NOT_FOUND msg).
Qed.

(** ** Tokens of error replies *)

Lemma method_not_allowed_reply (s : CoapServer) (now : Z) (msg : Message)
  (err : option Error) (addr : UDPAddr) :
  reachesRouting msg err ->
  matchError s msg = Some ERR_NO_MATCHING_METHOD ->
  exists ret,
    sent (snd (handleMessage s now msg err addr)) = [(ret, addr)] /\
    Code ret = COAPCODE_405_METHOD_NOT_ALLOWED /\
    Token ret = EmptyString.
Proof.
  intros Hr Hm.
  rewrite (handleMessage_routes _ _ _ _ _ Hr), (routeMessage_method_not_allowed _ _ _ _ Hm).
  cbn [fst snd sent].
  rewrite sent_app, sent_errorEvents.
  eexists. split; [reflexivity|].
  destruct (CloneOptions_header echoed
              (MethodNotAllowedMessage (MessageId msg) TYPE_ACKNOWLEDGEMENT) msg)
    as (_ & Hco & _ & Htok & _).
  split; assumption.
Qed.

(** ** Observe requests *)

Lemma handlerCalls_respond (rt : Route) (req : CoapRequest) (addr : UDPAddr) :
  handlerCalls (respond rt req addr) = [(rt, req)].
Proof.
  unfold respond. cbn [handlerCalls].
  destruct (Handler rt req) as [|m]; [reflexivity|].
  destruct (ValidateMessage m); reflexivity.
Qed.

Lemma hasObservation_withMessageIds (s : CoapServer) (ids : gmap Z Z) (resource : string)
  (addr : UDPAddr) :
  hasObservation (withMessageIds s ids) resource addr = hasObservation s resource addr.
Proof. reflexivity. Qed.

Lemma observations_add_withMessageIds (s : CoapServer) (ids : gmap Z Z)
  (resource token : string) (addr : UDPAddr) :
  observations (addObservation (withMessageIds s ids) resource token addr)
  = observations (addObservation s resource token addr).
Proof. reflexivity. Qed.

Lemma observations_remove_withMessageIds (s : CoapServer) (ids : gmap Z Z)
  (resource : string) (addr : UDPAddr) :
  observations (removeObservation (withMessageIds s ids) resource addr)
  = observations (removeObservation s resource addr).
Proof.
  unfold removeObservation. simpl.
  destruct (observations s !! resource) as [obs|]; [|reflexivity].
  destruct (firstPeer addr obs); reflexivity.
Qed.




(** ** The observation registry *)

Lemma firstPeer_absent (addr : UDPAddr) (obs : list Observation) :
  existsb (samePeer addr) obs = false -> firstPeer addr obs = None.
Proof.
  induction obs as [|o obs IH]; simpl; [reflexivity|].
  intros Hex. apply orb_false_iff in Hex as [Ho Hrest].
  rewrite Ho, (IH Hrest). reflexivity.
Qed.

Lemma firstPeer_present (addr : UDPAddr) (obs : list Observation) :
  existsb (samePeer addr) obs = true -> exists idx, firstPeer addr obs = Some idx.
Proof.
  induction obs as [|o obs IH]; simpl; [discriminate|].
  destruct (samePeer addr o); [eauto|]. simpl.
  intros Hex. destruct (IH Hex) as [idx Hidx]. rewrite Hidx. eauto.
Qed.

Lemma removeObservation_absent (s : CoapServer) (resource : string) (addr : UDPAddr) :
  hasObservation s resource addr = false -> removeObservation s resource addr = s.
Proof.
  unfold hasObservation, removeObservation.
  destruct (observations s !! resource) as [obs|]; [|reflexivity].
  intros Hex. rewrite (firstPeer_absent _ _ Hex). reflexivity.
Qed.

Lemma observers_addObservation (s : CoapServer) (resource token : string) (addr : UDPAddr) :
  observers (addObservation s resource token addr) resource = S (observers s resource).
Proof.
  unfold observers, addObservation. simpl.
  rewrite lookup_insert_eq. simpl. rewrite length_app. simpl. lia.
Qed.

Lemma peer_not_among (addr : UDPAddr) (obs : list Observation) :
  existsb (samePeer addr) obs = false ->
  UDPAddr_String addr ∉ (fun o => UDPAddr_String (Addr o)) <$> obs.
Proof.
  induction obs as [|o obs IH]; simpl; intros Hex.
  - apply not_elem_of_nil.
  - apply orb_false_iff in Hex as [Ho Hrest].
    apply not_elem_of_cons. split; [|exact (IH Hrest)].
    unfold samePeer in Ho. apply String.eqb_neq in Ho. congruence.
Qed.

Lemma uniqueObservations_same (s1 s2 : CoapServer) :
  observations s1 = observations s2 -> uniqueObservations s2 -> uniqueObservations s1.
Proof. unfold uniqueObservations. intros E Hu resource obs. rewrite E. apply Hu. Qed.

Lemma addObservation_unique (s : CoapServer) (resource token : string) (addr : UDPAddr) :
  hasObservation s resource addr = false ->
  uniqueObservations s ->
  uniqueObservations (addObservation s resource token addr).
Proof.
  unfold hasObservation, uniqueObservations, addObservation.
  intros Hhas Hu r obs. simpl.
  destruct (decide (resource = r)) as [->|Hne].
  - rewrite lookup_insert_eq. intros [= <-].
    rewrite fmap_app. apply NoDup_app. simpl.
    destruct (observations s !! r) as [old|] eqn:Hold; simpl.
    + split; [exact (Hu r old Hold)|]. split; [|apply NoDup_singleton].
      intros x Hx Hin. apply list_elem_of_singleton in Hin. subst x.
      exact (peer_not_among addr old Hhas Hx).
    + split; [apply NoDup_nil_2|]. split; [|apply NoDup_singleton].
      intros x Hx. apply not_elem_of_nil in Hx. contradiction.
  - rewrite lookup_insert_ne by exact Hne. apply Hu.
Qed.

Lemma removeObservation_unique (s : CoapServer) (resource : string) (addr : UDPAddr) :
  uniqueObservations s -> uniqueObservations (removeObservation s resource addr).
Proof.
  unfold uniqueObservations, removeObservation. intros Hu r obs.
  destruct (observations s !! resource) as [old|] eqn:Hold; [|apply Hu].
  destruct (firstPeer addr old) as [idx|]; [|apply Hu]. simpl.
  destruct (decide (resource = r)) as [->|Hne].
  - rewrite lookup_insert_eq. intros [= <-].
    rewrite <- delete_take_drop, list_fmap_delete.
    eapply sublist_NoDup; [exact (Hu r old Hold) | apply sublist_delete].
  - rewrite lookup_insert_ne by exact Hne. apply Hu.
Qed.

(** What a call of the dispatcher can do to the registry. *)
Lemma serve_observations (s : CoapServer) (now : Z) (msg : Message) (addr : UDPAddr)
  (rt : option Route) (attrs : list (string * string)) :
  let s' := fst (serve s now msg addr rt attrs) in
  observations s' = observations s \/
  (hasObservation s (GetUriPath msg) addr = false /\
   observations s' = observations (addObservation s (GetUriPath msg) (Token msg) addr)) \/
  observations s' = observations (removeObservation s (GetUriPath msg) addr).
Proof.
  unfold serve. destruct rt as [rt|]; [|left; reflexivity].
  unfold observeStep.
  destruct (MessageType msg =? TYPE_CONFIRMABLE); [|left; reflexivity].
  destruct (GetOption msg OPTION_OBSERVE) as [o|]; [|left; reflexivity].
  destruct (OptValue o); [left; reflexivity|].
  rewrite hasObservation_withMessageIds.
  destruct (hasObservation s (GetUriPath msg) addr) eqn:Hhas; cbn [fst].
  - right. right. apply observations_remove_withMessageIds.
  - right. left. split; [reflexivity|]. apply observations_add_withMessageIds.
Qed.

Lemma routeMessage_observations (s : CoapServer) (now : Z) (msg : Message) (addr : UDPAddr) :
  let s' := fst (routeMessage s now msg addr) in
  observations s' = observations s \/
  (hasObservation s (GetUriPath msg) addr = false /\
   observations s' = observations (addObservation s (GetUriPath msg) (Token msg) addr)) \/
  observations s' = observations (removeObservation s (GetUriPath msg) addr).
Proof.
  unfold routeMessage.
  destruct (MatchingRoute _ _ _ _) as [[rt attrs] e].
  destruct e as [[| | | |w]|]; try (left; reflexivity);
    destruct (messageIds s !! MessageId msg);
    try (destruct (MessageType msg =? TYPE_CONFIRMABLE); left; reflexivity);
    try (left; reflexivity).
  apply serve_observations.
Qed.

Lemma handleMessage_observations (s : CoapServer) (now : Z) (msg : Message)
  (err : option Error) (addr : UDPAddr) :
  let s' := fst (handleMessage s now msg err addr) in
  observations s' = observations s \/
  (hasObservation s (GetUriPath msg) addr = false /\
   observations s' = observations (addObservation s (GetUriPath msg) (Token msg) addr)) \/
  observations s' = observations (removeObservation s (GetUriPath msg) addr).
Proof.
  unfold handleMessage.
  destruct (MessageType msg =? TYPE_ACKNOWLEDGEMENT).
  { destruct (GetOption msg OPTION_OBSERVE); left; reflexivity. }
  destruct (MessageType msg =? TYPE_RESET); [left; reflexivity|].
  destruct (supportedMethod (Code msg)); [|left; reflexivity]. cbn [negb].
  pose proof (routeMessage_observations s now msg addr) as Hroute.
  destruct (routeMessage s now msg addr) as [s' effs]. cbn [fst] in Hroute.
  destruct err as [[| | | |w]|];
    try (destruct (IsProxyRequest msg); [left; reflexivity | exact Hroute]).
  destruct (MessageType msg =? TYPE_CONFIRMABLE); left; reflexivity.
Qed.

Lemma handleMessage_unique (s : CoapServer) (now : Z) (msg : Message)
  (err : option Error) (addr : UDPAddr) :
  uniqueObservations s -> uniqueObservations (fst (handleMessage s now msg err addr)).
Proof.
  intros Hu.
  destruct (handleMessage_observations s now msg err addr) as [E|[[Hhas E]|E]];
    apply (uniqueObservations_same _ _ E).
  - exact Hu.
  - apply addObservation_unique; assumption.
  - apply removeObservation_unique; assumption.
Qed.

Lemma notifyLoop_peers (val : string) (t : list Observation) :
  forall req : Message,
    (fun o => UDPAddr_String (Addr o)) <$> fst (fst (notifyLoop req val t))
    = (fun o => UDPAddr_String (Addr o)) <$> t.
Proof.
  induction t as [|r rest IH]; intros req; [reflexivity|].
  cbn [notifyLoop].
  set (req4 := AddOption _ _ _). specialize (IH req4).
  destruct (notifyLoop req4 val rest) as [[rest' reqEnd] effs].
  cbn [fst snd] in *. rewrite !fmap_cons, IH. reflexivity.
Qed.

Lemma NotifyChange_unique (s : CoapServer) (resource val : string) (confirm : bool) (mid : Z) :
  uniqueObservations s -> uniqueObservations (fst (NotifyChange s resource val confirm mid)).
Proof.
  unfold NotifyChange. intros Hu.
  destruct (observations s !! resource) as [t|] eqn:Ht; [|exact Hu].
  set (req := if confirm then _ else _).
  pose proof (notifyLoop_peers val t req) as Hpeers.
  destruct (notifyLoop req val t) as [[t' reqEnd] effs]. cbn [fst snd] in *.
  intros r obs. simpl.
  destruct (decide (resource = r)) as [->|Hne].
  - rewrite lookup_insert_eq. intros [= <-]. rewrite Hpeers. exact (Hu r t Ht).
  - rewrite lookup_insert_ne by exact Hne. apply Hu.
Qed.

(** C5, as the code has it: cancelling an Observation of a (resource,
    peer) pair that does not exist leaves the server unchanged;
    [addObservation] itself appends without looking, and it is the
    dispatcher that calls it only after [hasObservation] said no.  So,
    for a call of the dispatcher that runs on its own, with no other call
    between its check and its append: a registry with at most one
    Observation per (resource, peer) pair keeps that property under a
    registration guarded that way, under every cancellation and under every
    such call. *)
Theorem registry_stays_unique :
  forall (s : CoapServer) (resource token : string) (addr : UDPAddr),
    (hasObservation s resource addr = false -> removeObservation s resource addr = s) /\
    (uniqueObservations s ->
       (hasObservation s resource addr = false ->
          uniqueObservations (addObservation s resource token addr)) /\
       uniqueObservations (removeObservation s resource addr) /\
       (forall (now : Z) (msg : Message) (err : option Error),
          uniqueObservations (fst (handleMessage s now msg err addr)))).
Proof.
  intros s resource token addr. split.
  - apply removeObservation_absent.
  - intros Hu. split; [|split].
    + intros Hhas. apply addObservation_unique; assumption.
    + apply removeObservation_unique; assumption.
    + intros now msg err. apply handleMessage_unique; assumption.
Qed.

(** ** Notifications *)

Lemma wrapInt_in_range (n : Z) : - 2 ^ 63 <= n < 2 ^ 63 -> wrapInt n = n.
Proof.
  intros Hn. unfold wrapInt.
  rewrite Z.mod_small by lia. lia.
Qed.

Lemma notifyLoop_written (val : string) (t : list Observation) :
  forall req : Message,
    Forall (fun m => MessageType m = MessageType req /\
                     MessageId m = MessageId req /\
                     (Payload req = Some val -> Payload m = Some val) /\
                     (forall x, In x (Options req) -> In x (Options m)))
           (written (snd (notifyLoop req val t))).
Proof.
  induction t as [|r rest IH]; intros req; [constructor|].
  cbn [notifyLoop].
  set (req4 := AddOption _ _ _).
  specialize (IH req4).
  destruct (notifyLoop req4 val rest) as [[rest' reqEnd] effs].
  cbn [fst snd written] in *.
  repeat constructor; cbn; auto.
  - intros x Hx. apply in_or_app. left. exact Hx.
  - intros x Hx. apply in_or_app. left. apply in_or_app. left. exact Hx.
  - eapply Forall_impl; [exact IH|].
    intros m (Hty & Hid & Hpay & Hopt). cbn in Hty, Hid, Hpay, Hopt.
    repeat split; auto.
    intros x Hx. apply Hopt. apply in_or_app. left. apply in_or_app. left. exact Hx.
Qed.

Lemma notifyLoop_notifications (val : string) (ty mid : Z) (t : list Observation) :
  forall (req : Message) (cur : option Message),
    MessageType req = ty ->
    MessageId req = mid ->
    Forall countInRange t ->
    Forall2 (notifies val ty mid) t (notifications cur (snd (notifyLoop req val t))).
Proof.
  induction t as [|r rest IH]; intros req cur Hty Hid Hrange; [constructor|].
  apply Forall_cons in Hrange as [Hr Hrest].
  cbn [notifyLoop].
  set (req4 := AddOption _ _ _).
  specialize (IH req4 (Some req4) Hty Hid Hrest).
  pose proof (notifyLoop_written val rest req4) as Hw.
  destruct (notifyLoop req4 val rest) as [[rest' reqEnd] effs].
  cbn [fst snd notifications] in *.
  assert (Hown : In (observeSequence (NotifyCount r + 1)) (Options req4)).
  { subst req4. cbn. rewrite wrapInt_in_range by (unfold countInRange in Hr; lia).
    apply in_or_app. right. left. reflexivity. }
  constructor; [|exact IH].
  split; [reflexivity|]. split; [discriminate|]. cbn [snd].
  constructor.
  - repeat split; try assumption; try reflexivity.
  - eapply Forall_impl; [exact Hw|].
    intros m (Hmty & Hmid & Hpay & Hopt).
    repeat split.
    + rewrite Hmty. exact Hty.
    + rewrite Hmid. exact Hid.
    + apply Hpay. reflexivity.
    + apply Hopt. exact Hown.
Qed.

Lemma notifyLoop_counts (val : string) (t : list Observation) :
  forall req : Message,
    Forall countInRange t -> fst (fst (notifyLoop req val t)) = map notifiedOnce t.
Proof.
  induction t as [|r rest IH]; intros req Hrange; [reflexivity|].
  apply Forall_cons in Hrange as [Hr Hrest].
  cbn [notifyLoop].
  set (req4 := AddOption _ _ _).
  specialize (IH req4 Hrest).
  destruct (notifyLoop req4 val rest) as [[rest' reqEnd] effs].
  cbn [fst snd map] in *. rewrite IH. f_equal.
  unfold notifiedOnce. rewrite wrapInt_in_range by (unfold countInRange in Hr; lia). reflexivity.
Qed.

Lemma notifyLoop_spawned (val : string) (t : list Observation) :
  forall req : Message,
    Forall2 (fun o e => e = SendTo (Addr o)) t (spawned (snd (notifyLoop req val t))) /\
    sent (snd (notifyLoop req val t)) = [].
Proof.
  induction t as [|r rest IH]; intros req; [split; [constructor | reflexivity]|].
  cbn [notifyLoop].
  set (req4 := AddOption _ _ _). specialize (IH req4).
  destruct (notifyLoop req4 val rest) as [[rest' reqEnd] effs].
  cbn [fst snd spawned sent] in *. destruct IH as [IH1 IH2].
  split; [constructor; [reflexivity | exact IH1] | exact IH2].
Qed.


(** ** The purge of message IDs *)

Lemma purgeTick_lookup (now : Z) (s : CoapServer) (id seen : Z) :
  messageIds (purgeTick now s) !! id = Some seen <->
  messageIds s !! id = Some seen /\ Since now seen <= MESSAGEID_PURGE_DURATION.
Proof.
  unfold purgeTick, expired. simpl.
  rewrite map_lookup_filter_Some. simpl.
  rewrite Z.ltb_ge. reflexivity.
Qed.

Lemma retention_below_period :
  0 < MESSAGEID_PURGE_DURATION -> MESSAGEID_PURGE_DURATION < purgeTickerPeriod.
Proof. unfold purgeTickerPeriod, Second, Nanosecond. lia. Qed.

Lemma purgeTick_drops (now : Z) (s : CoapServer) (id seen : Z) :
  messageIds s !! id = Some seen ->
  MESSAGEID_PURGE_DURATION < Since now seen ->
  messageIds (purgeTick now s) !! id = None.
Proof.
  intros Hs Hold.
  destruct (messageIds (purgeTick now s) !! id) as [v|] eqn:E; [|reflexivity].
  apply purgeTick_lookup in E as [E1 E2].
  rewrite Hs in E1. injection E1 as <-. lia.
Qed.

End ServerProperties.

(** * Further properties *)

(** ** The priority queue *)

Lemma withIndex_withIndex (it : Item) (i j : Z) : withIndex (withIndex it i) j = withIndex it j.
Proof. reflexivity. Qed.

Lemma withIndex_same (it : Item) : withIndex it (index it) = it.
Proof. destruct it; reflexivity. Qed.

Lemma setIndex_same (h : ItemHeap) (a : nat) (i : Z) : setIndex h a i a = withIndex (h a) i.
Proof. unfold setIndex. rewrite Nat.eqb_refl. reflexivity. Qed.

Lemma setIndex_other (h : ItemHeap) (a b : nat) (i : Z) : b <> a -> setIndex h a i b = h b.
Proof. intros Hne. unfold setIndex. apply Nat.eqb_neq in Hne. rewrite Hne. reflexivity. Qed.

Ltac heap_simpl :=
  repeat (rewrite setIndex_same || rewrite setIndex_other by congruence);
  rewrite ?withIndex_withIndex.

(** X1: on a queue that exists, [Push] of a pointer to an item followed by
    [Pop] returns that pointer and leaves the queue's list of pointers as
    it was before the [Push], whatever the priorities are and whether or
    not the item was queued already.  The item pointed to then has index
    -1 and is otherwise unchanged, and no other item is written to. *)
Theorem DefaultQueue_Push_Pop :
  forall (h : ItemHeap) (q : DefaultQueue) (l : PriorityQueue) (a : nat),
    priorityQueue q = Some l ->
    exists h1 q1,
      DefaultQueue_Push h q (Some a) = Returns (h1, q1) /\
      PriorityQueue_Len (default [] (priorityQueue q1)) = PriorityQueue_Len l + 1 /\
      exists h2,
        DefaultQueue_Pop h1 q1 = Returns (h2, Some a, q) /\
        h2 a = withIndex (h a) (-1) /\
        (forall b, b <> a -> h2 b = h b).
Proof.
  intros h [pq] l a Hq. simpl in Hq. subst pq.
  unfold DefaultQueue_Push, DefaultQueue_Pop, PriorityQueue_Push, PriorityQueue_Pop. simpl.
  eexists _, _. split; [reflexivity|]. simpl. split.
  - unfold PriorityQueue_Len. rewrite length_app. simpl. lia.
  - rewrite last_snoc, removelast_last. eexists. split; [reflexivity|]. split.
    + rewrite !setIndex_same. reflexivity.
    + intros b Hb. rewrite !setIndex_other by exact Hb. reflexivity.
Qed.

(** X2: [Pop] panics exactly when the queue pointer is nil (as
    [NewDefaultQueue] leaves it), the queue is empty or its last entry is
    a nil item; [Push] panics exactly when the queue pointer or the item
    pushed is nil. *)
Theorem DefaultQueue_panics :
  forall (h : ItemHeap) (q : DefaultQueue) (x : ItemPtr),
    (DefaultQueue_Pop h q = Panics <->
       priorityQueue q = None \/ priorityQueue q = Some [] \/
       exists l, priorityQueue q = Some (l ++ [None])) /\
    (DefaultQueue_Push h q x = Panics <-> priorityQueue q = None \/ x = None).
Proof.
  intros h [pq] x. unfold DefaultQueue_Pop, DefaultQueue_Push, PriorityQueue_Pop, PriorityQueue_Push.
  simpl. split.
  - destruct pq as [l|]; [|split; auto].
    destruct l as [|p l _] using rev_ind.
    + simpl. split; auto.
    + rewrite last_snoc. destruct p as [a|].
      * split; [discriminate|].
        intros [Hn|[Hn|[l' Hn]]]; try discriminate.
        { injection Hn as Hn. destruct l; discriminate. }
        { injection Hn as Hn. apply app_inj_tail in Hn as [_ Hn]. discriminate. }
      * split; [|reflexivity]. intros _. right. right. exists l. reflexivity.
  - destruct pq as [l|]; [|split; auto].
    destruct x as [a|]; split; auto; try discriminate.
    intros [Hn|Hn]; discriminate.
Qed.

Lemma wellIndexed_distinct (h : ItemHeap) (pq : list ItemPtr) (i j a : nat) :
  wellIndexed h pq -> pq !! i = Some (Some a) -> pq !! j = Some (Some a) -> i = j.
Proof.
  intros Hw Hi Hj. pose proof (Hw i a Hi). pose proof (Hw j a Hj). lia.
Qed.

Lemma Push_wellIndexed (h h' : ItemHeap) (l l' : list ItemPtr) (a : nat) :
  wellIndexed h l ->
  Some a ∉ l ->
  PriorityQueue_Push h (Some l) (Some a) = Returns (h', l') ->
  wellIndexed h' l'.
Proof.
  unfold PriorityQueue_Push. intros Hw Hfresh [= <- <-] i b Hi.
  apply lookup_snoc_Some in Hi as [[Hlt Hi]|[-> [= <-]]].
  - rewrite setIndex_other; [exact (Hw i b Hi)|].
    intros ->. apply Hfresh. apply list_elem_of_lookup. eauto.
  - rewrite setIndex_same. reflexivity.
Qed.

Lemma Pop_wellIndexed (h h' : ItemHeap) (old rest : list ItemPtr) (p : ItemPtr) :
  wellIndexed h old ->
  PriorityQueue_Pop h (Some old) = Returns (h', p, rest) ->
  wellIndexed h' rest.
Proof.
  unfold PriorityQueue_Pop. intros Hw Hpop.
  destruct old as [|y old _] using rev_ind; [discriminate|].
  rewrite last_snoc, removelast_last in Hpop.
  destruct y as [a|]; [|discriminate]. injection Hpop as <- _ <-.
  intros i b Hi.
  pose proof (lookup_lt_Some _ _ _ Hi) as Hlt.
  assert (Hi' : (old ++ [Some a]) !! i = Some (Some b)) by (rewrite lookup_app_l; assumption).
  rewrite setIndex_other; [exact (Hw i b Hi')|].
  intros ->.
  assert (Hlast : (old ++ [Some a]) !! length old = Some (Some a))
    by (apply list_lookup_middle; reflexivity).
  pose proof (wellIndexed_distinct h _ _ _ _ Hw Hi' Hlast). lia.
Qed.

Lemma Swap_wellIndexed (h h' : ItemHeap) (pq pq' : list ItemPtr) (i j : nat) :
  wellIndexed h pq ->
  PriorityQueue_Swap h pq i j = Returns (h', pq') ->
  wellIndexed h' pq'.
Proof.
  unfold PriorityQueue_Swap. unfold PriorityQueue in *. intros Hw Hswap.
  destruct (pq !! i) as [pi|] eqn:Hi; [|discriminate].
  destruct (pq !! j) as [pj|] eqn:Hj; [|discriminate].
  pose proof (lookup_lt_Some _ _ _ Hi) as Hli.
  pose proof (lookup_lt_Some _ _ _ Hj) as Hlj.
  cbn zeta in Hswap.
  assert (Hj' : <[j:=pi]> (<[i:=pj]> pq) !! j = Some pi).
  { apply list_lookup_insert_eq. rewrite length_insert. exact Hlj. }
  rewrite Hj' in Hswap.
  destruct (decide (i = j)) as [->|Hne].
  - rewrite Hj' in Hswap. destruct pi as [a|]; [|discriminate].
    injection Hswap as <- <-.
    rewrite Hi in Hj. injection Hj as <-.
    rewrite list_insert_insert_eq, (list_insert_id pq j (Some a) Hi).
    intros k b Hk.
    destruct (decide (b = a)) as [->|Hba].
    + rewrite setIndex_same. simpl.
      f_equal. exact (wellIndexed_distinct h pq _ _ _ Hw Hi Hk).
    + rewrite !setIndex_other by exact Hba. exact (Hw k b Hk).
  - assert (Hi' : <[j:=pi]> (<[i:=pj]> pq) !! i = Some pj).
    { rewrite list_lookup_insert_ne by congruence. apply list_lookup_insert_eq. exact Hli. }
    rewrite Hi' in Hswap.
    destruct pj as [b|]; [|discriminate]. destruct pi as [a|]; [|discriminate].
    injection Hswap as <- <-.
    assert (Hab : a <> b).
    { intros ->. apply Hne. exact (wellIndexed_distinct h pq _ _ _ Hw Hi Hj). }
    intros k c Hk.
    destruct (decide (k = j)) as [->|Hkj].
    { rewrite Hj' in Hk. injection Hk as <-. rewrite setIndex_same. reflexivity. }
    rewrite list_lookup_insert_ne in Hk by congruence.
    destruct (decide (k = i)) as [->|Hki].
    { rewrite list_lookup_insert_eq in Hk by exact Hli. injection Hk as <-.
      rewrite setIndex_other by congruence. rewrite setIndex_same. reflexivity. }
    rewrite list_lookup_insert_ne in Hk by congruence.
    assert (c <> a) by (intros ->; apply Hki; exact (wellIndexed_distinct h pq _ _ _ Hw Hk Hi)).
    assert (c <> b) by (intros ->; apply Hkj; exact (wellIndexed_distinct h pq _ _ _ Hw Hk Hj)).
    rewrite !setIndex_other by assumption. exact (Hw k c Hk).
Qed.

(** X3: the index bookkeeping is an invariant of the heap interface: if
    the index of every item the queue points to is the position of the
    pointer, this is still so after a [Push] of a pointer the queue does
    not hold yet (the item pushed gets the old length as its index), after
    a [Swap], and, for the pointers left, after a [Pop]. *)
Theorem PriorityQueue_index_invariant :
  forall (h : ItemHeap) (pq : PriorityQueue),
    wellIndexed h pq ->
    (forall a h' pq',
       Some a ∉ pq ->
       PriorityQueue_Push h (Some pq) (Some a) = Returns (h', pq') ->
       wellIndexed h' pq' /\
       pq' !! length pq = Some (Some a) /\
       index (h' a) = Z.of_nat (length pq)) /\
    (forall i j h' pq', PriorityQueue_Swap h pq i j = Returns (h', pq') -> wellIndexed h' pq') /\
    (forall h' p rest, PriorityQueue_Pop h (Some pq) = Returns (h', p, rest) ->
                       wellIndexed h' rest).
Proof.
  intros h pq Hw. split; [|split].
  - intros a h' pq' Hfresh Hpush. split; [exact (Push_wellIndexed _ _ _ _ _ Hw Hfresh Hpush)|].
    unfold PriorityQueue_Push in Hpush. injection Hpush as <- <-. split.
    + apply list_lookup_middle. reflexivity.
    + rewrite setIndex_same. reflexivity.
  - intros i j h' pq'. apply Swap_wellIndexed. exact Hw.
  - intros h' p rest. apply Pop_wellIndexed. exact Hw.
Qed.

(** X4: [Less] returns exactly when both positions are in range and hold
    pointers that are not nil, and panics otherwise; where it returns it
    is a strict order on the positions: no position is below itself, and
    it is asymmetric and transitive. *)
Theorem PriorityQueue_Less_strict_order :
  forall (h : ItemHeap) (pq : PriorityQueue) (i j k : nat),
    ((exists b, PriorityQueue_Less h pq i j = Returns b) <->
       (exists a b, pq !! i = Some (Some a) /\ pq !! j = Some (Some b))) /\
    PriorityQueue_Less h pq i i <> Returns true /\
    (PriorityQueue_Less h pq i j = Returns true ->
     PriorityQueue_Less h pq j k = Returns true ->
     PriorityQueue_Less h pq i k = Returns true) /\
    (PriorityQueue_Less h pq i j = Returns true ->
     PriorityQueue_Less h pq j i = Returns false).
Proof.
  intros h pq i j k. unfold PriorityQueue_Less. unfold PriorityQueue in *.
  split; [|split; [|split]].
  - split.
    + intros [b Hb].
      destruct (pq !! i) as [[a|]|] eqn:Hi; try discriminate.
      destruct (pq !! j) as [[c|]|] eqn:Hj; try discriminate.
      eauto.
    + intros (a & b & Ha & Hb). rewrite Ha, Hb. eauto.
  - destruct (pq !! i) as [[a|]|]; try discriminate.
    intros [= Hlt]. apply Z.ltb_lt in Hlt. lia.
  - destruct (pq !! i) as [[a|]|]; try discriminate.
    destruct (pq !! j) as [[b|]|]; try discriminate.
    destruct (pq !! k) as [[c|]|]; try discriminate.
    intros [= H1] [= H2]. f_equal. apply Z.ltb_lt in H1, H2. apply Z.ltb_lt. lia.
  - destruct (pq !! i) as [[a|]|]; try discriminate.
    destruct (pq !! j) as [[b|]|]; try discriminate.
    intros [= H1]. f_equal. apply Z.ltb_lt in H1. apply Z.ltb_ge. lia.
Qed.

(** X5: [Swap] on two positions that hold pointers to items exchanges the
    two pointers and nothing else in the queue, which keeps its length.
    The item that was at [i] ends with index [j]; the item that was at
    [j] ends with index [i] unless it is the same item; no other item is
    written to.  On a queue whose indices are right a second [Swap] of
    the same positions restores the queue and every item. *)
Theorem PriorityQueue_Swap_exchanges :
  forall (h : ItemHeap) (pq : PriorityQueue) (i j a b : nat),
    pq !! i = Some (Some a) ->
    pq !! j = Some (Some b) ->
    exists h' pq',
      PriorityQueue_Swap h pq i j = Returns (h', pq') /\
      length pq' = length pq /\
      pq' !! i = Some (Some b) /\
      pq' !! j = Some (Some a) /\
      (forall k, k <> i -> k <> j -> pq' !! k = pq !! k) /\
      h' a = withIndex (h a) (Z.of_nat j) /\
      (a <> b -> h' b = withIndex (h b) (Z.of_nat i)) /\
      (forall c, c <> a -> c <> b -> h' c = h c) /\
      (wellIndexed h pq ->
       exists h'', PriorityQueue_Swap h' pq' i j = Returns (h'', pq) /\ forall c, h'' c = h c).
Proof.
  intros h pq i j a b Hi Hj. unfold PriorityQueue in *.
  pose proof (lookup_lt_Some _ _ _ Hi) as Hli.
  pose proof (lookup_lt_Some _ _ _ Hj) as Hlj.
  set (pq' := <[j:=Some a]> (<[i:=Some b]> pq)).
  assert (Hj' : pq' !! j = Some (Some a)).
  { apply list_lookup_insert_eq. rewrite length_insert. exact Hlj. }
  assert (Hi' : pq' !! i = Some (Some b)).
  { destruct (decide (i = j)) as [->|Hne].
    - rewrite Hj'. rewrite Hi in Hj. exact Hj.
    - subst pq'. rewrite list_lookup_insert_ne by congruence.
      apply list_lookup_insert_eq. exact Hli. }
  assert (Hswap : PriorityQueue_Swap h pq i j
                  = Returns (setIndex (setIndex h b (Z.of_nat i)) a (Z.of_nat j), pq')).
  { unfold PriorityQueue_Swap. unfold PriorityQueue in *. rewrite Hi, Hj. cbn zeta.
    fold pq'. rewrite Hi', Hj'. reflexivity. }
  eexists _, pq'. split; [exact Hswap|].
  split; [subst pq'; rewrite !length_insert; reflexivity|].
  split; [exact Hi'|]. split; [exact Hj'|].
  split; [intros k Hki Hkj; subst pq'; rewrite !list_lookup_insert_ne by congruence; reflexivity|].
  split.
  { rewrite setIndex_same. destruct (decide (a = b)) as [->|Hab].
    - rewrite setIndex_same. reflexivity.
    - rewrite setIndex_other by exact Hab. reflexivity. }
  split.
  { intros Hab. rewrite setIndex_other by congruence. apply setIndex_same. }
  split.
  { intros c Hca Hcb. rewrite !setIndex_other by assumption. reflexivity. }
  intros Hw.
  pose proof (Hw i a Hi) as Hia. pose proof (Hw j b Hj) as Hjb.
  assert (Hback : <[j:=Some b]> (<[i:=Some a]> pq') = pq).
  { subst pq'. apply list_eq. intros k.
    destruct (decide (k = j)) as [->|Hkj].
    { rewrite list_lookup_insert_eq; [symmetry; exact Hj|].
      rewrite !length_insert. exact Hlj. }
    rewrite list_lookup_insert_ne by congruence.
    destruct (decide (k = i)) as [->|Hki].
    { rewrite list_lookup_insert_eq; [symmetry; exact Hi|].
      rewrite !length_insert. exact Hli. }
    rewrite !list_lookup_insert_ne by congruence. reflexivity. }
  eexists. split.
  - unfold PriorityQueue_Swap. unfold PriorityQueue in *. rewrite Hi', Hj'. cbn zeta.
    rewrite Hback, Hi, Hj. reflexivity.
  - intros c. clearbody pq'.
    assert (Hwi : forall x k, index (h x) = k -> withIndex (h x) k = h x)
      by (intros x k <-; apply withIndex_same).
    destruct (decide (c = a)) as [Hca|Hca]; destruct (decide (c = b)) as [Hcb|Hcb];
      try subst; heap_simpl; first [reflexivity | apply Hwi; assumption].
Qed.

Section FurtherServerProperties.
Context `{Collaborators}.

(** [has_test t] succeeds when the term [t] contains a test. *)
Ltac has_test t :=
  match t with
  | context [match _ with _ => _ end] => idtac
  end.

(** Case analysis on a test of the goal that tests no other test. *)
Ltac break_innermost :=
  match goal with
  | |- context [match ?scrutinee with _ => _ end] =>
      tryif has_test scrutinee then fail else destruct scrutinee eqn:?
  end.

(** ** What the dispatcher leaves alone *)

Lemma removeObservation_frame (s : CoapServer) (resource : string) (addr : UDPAddr) :
  routes (removeObservation s resource addr) = routes s /\
  queue (removeObservation s resource addr) = queue s /\
  messageIds (removeObservation s resource addr) = messageIds s.
Proof.
  unfold removeObservation.
  destruct (observations s !! resource) as [obs|]; [|auto].
  destruct (firstPeer addr obs); auto.
Qed.

Lemma observeStep_frame (s : CoapServer) (msg : Message) (addr : UDPAddr) :
  routes (fst (fst (observeStep s msg addr))) = routes s /\
  queue (fst (fst (observeStep s msg addr))) = queue s /\
  messageIds (fst (fst (observeStep s msg addr))) = messageIds s.
Proof.
  unfold observeStep.
  destruct (MessageType msg =? TYPE_CONFIRMABLE); [|auto].
  destruct (GetOption msg OPTION_OBSERVE) as [o|]; [|auto].
  destruct (OptValue o); [auto|].
  destruct (hasObservation s (GetUriPath msg) addr); cbn [fst].
  - apply removeObservation_frame.
  - auto.
Qed.

Lemma serve_frame (s : CoapServer) (now : Z) (msg : Message) (addr : UDPAddr)
  (rt : option Route) (attrs : list (string * string)) :
  routes (fst (serve s now msg addr rt attrs)) = routes s /\
  queue (fst (serve s now msg addr rt attrs)) = queue s /\
  messageIds (fst (serve s now msg addr rt attrs)) = <[MessageId msg := now]> (messageIds s).
Proof.
  unfold serve. destruct rt as [rt|]; [|auto].
  pose proof (observeStep_frame
                (withMessageIds s (<[MessageId msg := now]> (messageIds s))) msg addr) as Hf.
  destruct (observeStep _ msg addr) as [[s2 msg'] obsEffs]. exact Hf.
Qed.

Lemma routeMessage_frame (s : CoapServer) (now : Z) (msg : Message) (addr : UDPAddr) :
  routes (fst (routeMessage s now msg addr)) = routes s /\
  queue (fst (routeMessage s now msg addr)) = queue s /\
  (messageIds (fst (routeMessage s now msg addr)) = messageIds s \/
   (messageIds s !! MessageId msg = None /\
    messageIds (fst (routeMessage s now msg addr)) = <[MessageId msg := now]> (messageIds s))).
Proof.
  unfold routeMessage.
  destruct (MatchingRoute _ _ _ _) as [[rt attrs] e].
  pose proof (serve_frame s now msg addr rt attrs) as (Hr & Hq & Hm).
  destruct e as [[| | | |w]|]; cbn [fst]; auto;
    destruct (messageIds s !! MessageId msg) eqn:Hseen;
    try (destruct (MessageType msg =? TYPE_CONFIRMABLE)); cbn [fst]; auto.
Qed.

Lemma handleMessage_state (s : CoapServer) (now : Z) (msg : Message) (err : option Error)
  (addr : UDPAddr) :
  fst (handleMessage s now msg err addr) = s \/
  fst (handleMessage s now msg err addr) = fst (routeMessage s now msg addr).
Proof.
  unfold handleMessage.
  destruct (routeMessage s now msg addr) as [s' effs]. cbn [fst].
  repeat break_innermost; cbn [fst]; auto.
Qed.

(** X6: the dispatcher never touches the routes or the queue, never
    removes a message ID and never overwrites the time at which an ID was
    first seen; the only entry it can add is the one of the message
    handled. *)
Theorem handleMessage_frame :
  forall (s : CoapServer) (now : Z) (msg : Message) (err : option Error) (addr : UDPAddr),
    routes (fst (handleMessage s now msg err addr)) = routes s /\
    queue (fst (handleMessage s now msg err addr)) = queue s /\
    (forall id seen, messageIds s !! id = Some seen ->
                     messageIds (fst (handleMessage s now msg err addr)) !! id = Some seen) /\
    (forall id, id <> MessageId msg ->
                messageIds (fst (handleMessage s now msg err addr)) !! id = messageIds s !! id).
Proof.
  intros s now msg err addr.
  destruct (handleMessage_state s now msg err addr) as [E|E]; rewrite E.
  - repeat split; auto.
  - destruct (routeMessage_frame s now msg addr) as (Hr & Hq & [Hm|[Hnew Hm]]); rewrite Hm.
    + repeat split; auto.
    + repeat split; auto.
      * intros id seen Hid. rewrite lookup_insert_ne; [exact Hid | congruence].
      * intros id Hne. apply lookup_insert_ne. congruence.
Qed.

(** ** What the dispatcher sends *)

Lemma spawned_app (a b : list Effect) : spawned (a ++ b) = spawned a ++ spawned b.
Proof.
  induction a as [|e a IH]; simpl; [reflexivity|].
  destruct e; simpl; rewrite ?IH; reflexivity.
Qed.

Lemma answers_after (msg : Message) (addr : UDPAddr) (pre tr : list Effect) :
  sent pre = [] -> handlerCalls pre = [] -> spawned pre = [] ->
  answers msg addr tr -> answers msg addr (pre ++ tr).
Proof.
  unfold answers. intros Hs Hh Hg Htr.
  rewrite sent_app, handlerCalls_app, spawned_app, Hs, Hh, Hg. exact Htr.
Qed.

Ltac close_answers :=
  solve [unfold answers; simpl; repeat split; intros;
         try discriminate; try lia; repeat constructor].

Lemma routeMessage_answers (s : CoapServer) (now : Z) (msg : Message) (addr : UDPAddr) :
  answers msg addr (snd (routeMessage s now msg addr)).
Proof.
  unfold routeMessage.
  destruct (MatchingRoute _ _ _ _) as [[rt attrs] e].
  destruct e as [[| | | |w]|]; try close_answers;
    (destruct (messageIds s !! MessageId msg);
     [destruct (MessageType msg =? TYPE_CONFIRMABLE); close_answers|]);
    try close_answers.
  unfold serve, observeStep, respond.
  repeat (break_innermost; cbn [fst snd andb]); close_answers.
Qed.

Lemma handleMessage_answers (s : CoapServer) (now : Z) (msg : Message) (err : option Error)
  (addr : UDPAddr) :
  answers msg addr (snd (handleMessage s now msg err addr)).
Proof.
  pose proof (routeMessage_answers s now msg addr) as Hroute.
  unfold handleMessage, proxy.
  destruct (routeMessage s now msg addr) as [s' effs]. cbn [snd] in Hroute.
  repeat (break_innermost; cbn [fst snd negb errorEvents app]);
    try (apply (answers_after msg addr [_]); [reflexivity..|exact Hroute]);
    try (apply (answers_after msg addr [_; _]); [reflexivity..|exact Hroute]);
    close_answers.
Qed.

(** X7: whatever the message, the dispatcher answers the sender and
    nobody else, with at most two datagrams (the automatic
    acknowledgement and the handler's response), calls at most one handler
    and starts no goroutine; as long as no handler ran it sends at most one
    datagram, and that one carries the message ID of the request. *)
Theorem handleMessage_answers_sender :
  forall (s : CoapServer) (now : Z) (msg : Message) (err : option Error) (addr : UDPAddr),
    Forall (fun p => snd p = addr) (sent (snd (handleMessage s now msg err addr))) /\
    (length (sent (snd (handleMessage s now msg err addr))) <= 2)%nat /\
    (length (handlerCalls (snd (handleMessage s now msg err addr))) <= 1)%nat /\
    spawned (snd (handleMessage s now msg err addr)) = [] /\
    (handlerCalls (snd (handleMessage s now msg err addr)) = [] ->
       (length (sent (snd (handleMessage s now msg err addr))) <= 1)%nat /\
       Forall (fun p => MessageId (fst p) = MessageId msg)
              (sent (snd (handleMessage s now msg err addr)))).
Proof.
  intros s now msg err addr. exact (handleMessage_answers s now msg err addr).
Qed.

(** ** The branches before route matching *)

(** X8: an inbound Acknowledgement is never answered and never reaches a
    handler, whatever else it carries; with an Observe option it is passed
    to the notify callback with its path and payload, without one only the
    message callback hears of it.  The server is unchanged. *)
Theorem Acknowledgement_only_notifies :
  forall (s : CoapServer) (now : Z) (msg : Message) (err : option Error) (addr : UDPAddr),
    MessageType msg = TYPE_ACKNOWLEDGEMENT ->
    fst (handleMessage s now msg err addr) = s /\
    sent (snd (handleMessage s now msg err addr)) = [] /\
    handlerCalls (snd (handleMessage s now msg err addr)) = [] /\
    snd (handleMessage s now msg err addr)
    = EvMessage msg true ::
      match GetOption msg OPTION_OBSERVE with
      | Some _ => [EvNotify (GetUriPath msg) (Payload msg) msg]
      | None => []
      end.
Proof.
  intros s now msg err addr Ht. unfold handleMessage. rewrite Ht. cbn [Z.eqb TYPE_ACKNOWLEDGEMENT].
  destruct (GetOption msg OPTION_OBSERVE); repeat split.
Qed.

(** X9: a request whose code is none of GET, POST, PUT and DELETE is
    answered "not implemented" before anything else is looked at: whether
    decoding failed, whether the message ID is on record and whether the
    request is Confirmable make no difference.  The reply is an
    Acknowledgement with the request's message ID and URI-Path options;
    no handler runs and the server is unchanged. *)
Theorem unsupported_method_not_implemented :
  forall (s : CoapServer) (now : Z) (msg : Message) (err : option Error) (addr : UDPAddr),
    MessageType msg <> TYPE_ACKNOWLEDGEMENT ->
    MessageType msg <> TYPE_RESET ->
    supportedMethod (Code msg) = false ->
    fst (handleMessage s now msg err addr) = s /\
    handlerCalls (snd (handleMessage s now msg err addr)) = [] /\
    exists resp,
      sent (snd (handleMessage s now msg err addr)) = [(resp, addr)] /\
      MessageType resp = TYPE_ACKNOWLEDGEMENT /\
      Code resp = COAPCODE_501_NOT_IMPLEMENTED /\
      MessageId resp = MessageId msg /\
      GetOptions resp OPTION_URI_PATH = GetOptions msg OPTION_URI_PATH.
Proof.
  intros s now msg err addr Hack Hrst Hm.
  unfold handleMessage.
  apply Z.eqb_neq in Hack. apply Z.eqb_neq in Hrst. rewrite Hack, Hrst, Hm.
  cbn [negb fst snd sent handlerCalls].
  split; [reflexivity|]. split; [reflexivity|].
  eexists. split; [reflexivity|].
  destruct (CloneOptions_header echoed
              (NotImplementedMessage (MessageId msg) TYPE_ACKNOWLEDGEMENT) msg)
    as (Hty & Hco & Hid & _).
  repeat split; try assumption.
  apply (echoed_UriPath (MessageId msg) TYPE_ACKNOWLEDGEMENT COAPCODE_501_NOT_IMPLEMENTED msg).
Qed.

(** X10: when decoding met an unknown critical option, a Confirmable
    request with a supported method is answered by one bare "bad option"
    Acknowledgement with its message ID, and any other request by nothing.
    The error callback hears of the error, the message callback does not
    hear of the reply; no route is looked up, no handler runs and the
    server is unchanged. *)
Theorem unknown_critical_option_bad_option :
  forall (s : CoapServer) (now : Z) (msg : Message) (addr : UDPAddr),
    MessageType msg <> TYPE_ACKNOWLEDGEMENT ->
    MessageType msg <> TYPE_RESET ->
    supportedMethod (Code msg) = true ->
    handleMessage s now msg (Some ERR_UNKNOWN_CRITICAL_OPTION) addr
    = (s, [EvMessage msg true; EvError ERR_UNKNOWN_CRITICAL_OPTION] ++
          if MessageType msg =? TYPE_CONFIRMABLE
          then [SendMessageTo (NewMessage TYPE_ACKNOWLEDGEMENT COAPCODE_402_BAD_OPTION
                                          (MessageId msg)) addr]
          else []) /\
    handlerCalls (snd (handleMessage s now msg (Some ERR_UNKNOWN_CRITICAL_OPTION) addr)) = [] /\
    (MessageType msg <> TYPE_CONFIRMABLE ->
     sent (snd (handleMessage s now msg (Some ERR_UNKNOWN_CRITICAL_OPTION) addr)) = []).
Proof.
  intros s now msg addr Hack Hrst Hm.
  unfold handleMessage.
  apply Z.eqb_neq in Hack. apply Z.eqb_neq in Hrst. rewrite Hack, Hrst, Hm.
  cbn [negb errorEvents].
  destruct (MessageType msg =? TYPE_CONFIRMABLE) eqn:Hc.
  - repeat split. intros Hn. apply Z.eqb_eq in Hc. contradiction.
  - repeat split.
Qed.

(** X11: a proxy request never reaches the route table: the dispatcher
    sends nothing itself, calls no route handler and does not record the
    message ID.  A CoAP URI goes to the CoAP-CoAP proxy handler; otherwise
    the Proxy-URI option decides, an HTTP URI going to the CoAP-HTTP
    handler and any other URI nowhere, and its absence is a nil
    dereference. *)
Theorem proxy_request_bypasses_routes :
  forall (s : CoapServer) (now : Z) (msg : Message) (err : option Error) (addr : UDPAddr),
    MessageType msg <> TYPE_ACKNOWLEDGEMENT ->
    MessageType msg <> TYPE_RESET ->
    supportedMethod (Code msg) = true ->
    err <> Some ERR_UNKNOWN_CRITICAL_OPTION ->
    IsProxyRequest msg = true ->
    fst (handleMessage s now msg err addr) = s /\
    sent (snd (handleMessage s now msg err addr)) = [] /\
    handlerCalls (snd (handleMessage s now msg err addr)) = [] /\
    snd (handleMessage s now msg err addr)
    = EvMessage msg true :: errorEvents err ++
      (if IsCoapUri msg then [CallCoapCoapProxy msg addr]
       else match GetOption msg OPTION_PROXY_URI with
            | None => [Panic]
            | Some o => if IsHttpUri (StringValue o) then [CallCoapHttpProxy msg addr] else []
            end).
Proof.
  intros s now msg err addr Hack Hrst Hm Herr Hp.
  assert (E : handleMessage s now msg err addr
              = (s, EvMessage msg true :: errorEvents err ++ proxy msg addr)).
  { unfold handleMessage.
    apply Z.eqb_neq in Hack. apply Z.eqb_neq in Hrst. rewrite Hack, Hrst, Hm, Hp.
    cbn [negb]. destruct (routeMessage s now msg addr) as [s' effs].
    destruct err as [[| | | |w]|]; try reflexivity. congruence. }
  rewrite E. cbn [fst snd sent handlerCalls].
  rewrite sent_app, handlerCalls_app, sent_errorEvents, handlerCalls_errorEvents.
  unfold proxy.
  repeat split;
    destruct (IsCoapUri msg); try reflexivity;
    destruct (GetOption msg OPTION_PROXY_URI) as [o|]; try reflexivity;
    destruct (IsHttpUri (StringValue o)); reflexivity.
Qed.

(** ** Route matching and serving *)

Lemma routeMessage_refused (s : CoapServer) (now : Z) (msg : Message) (addr : UDPAddr)
  (e : Error) (c : CoapCode) :
  (e = ERR_NO_MATCHING_METHOD /\ c = COAPCODE_405_METHOD_NOT_ALLOWED) \/
  (e = ERR_UNSUPPORTED_CONTENT_FORMAT /\ c = COAPCODE_415_UNSUPPORTED_CONTENT_FORMAT) ->
  matchError s msg = Some e ->
  routeMessage s now msg addr
  = (s, let ret := CloneOptions (NewMessage TYPE_ACKNOWLEDGEMENT c (MessageId msg)) msg echoed in
        [EvMessage ret false; SendMessageTo ret addr; EvError e]).
Proof.
  unfold matchError, matched, routeMessage. intros Hec He.
  destruct (MatchingRoute _ _ _ _) as [[rt attrs] e']. simpl in He. subst e'.
  destruct Hec as [[-> ->]|[-> ->]]; reflexivity.
Qed.

(** X12: a request that reaches route matching and is refused for its
    method or its content format is answered by exactly one
    Acknowledgement, "method not allowed" or "unsupported content format",
    with the request's message ID and URI-Path options; this holds whether
    or not the message ID is on record.  No handler runs, the error
    callback hears of the refusal and the server is unchanged. *)
Theorem refused_request_reply :
  forall (s : CoapServer) (now : Z) (msg : Message) (err : option Error) (addr : UDPAddr)
         (e : Error) (c : CoapCode),
    reachesRouting msg err ->
    (e = ERR_NO_MATCHING_METHOD /\ c = COAPCODE_405_METHOD_NOT_ALLOWED) \/
    (e = ERR_UNSUPPORTED_CONTENT_FORMAT /\ c = COAPCODE_415_UNSUPPORTED_CONTENT_FORMAT) ->
    matchError s msg = Some e ->
    fst (handleMessage s now msg err addr) = s /\
    handlerCalls (snd (handleMessage s now msg err addr)) = [] /\
    In (EvError e) (snd (handleMessage s now msg err addr)) /\
    exists ret,
      sent (snd (handleMessage s now msg err addr)) = [(ret, addr)] /\
      MessageType ret = TYPE_ACKNOWLEDGEMENT /\
      Code ret = c /\
      MessageId ret = MessageId msg /\
      GetOptions ret OPTION_URI_PATH = GetOptions msg OPTION_URI_PATH.
Proof.
  intros s now msg err addr e c Hr Hec He.
  rewrite (handleMessage_routes _ _ _ _ _ Hr), (routeMessage_refused _ now _ addr _ _ Hec He).
  cbn [fst snd sent handlerCalls].
  rewrite sent_app, handlerCalls_app, sent_errorEvents, handlerCalls_errorEvents.
  split; [reflexivity|]. split; [reflexivity|]. split.
  - right. apply in_or_app. right. simpl. auto.
  - eexists. split; [reflexivity|].
    destruct (CloneOptions_header echoed
                (NewMessage TYPE_ACKNOWLEDGEMENT c (MessageId msg)) msg)
      as (Hty & Hco & Hid & _).
    repeat split; try assumption.
    apply (echoed_UriPath (MessageId msg) TYPE_ACKNOWLEDGEMENT c msg).
Qed.

(** X13: when the matcher fails with an error other than the three the
    dispatcher answers, a request with a fresh message ID is dropped
    without a trace towards the peer: nothing is sent, no handler runs and
    the message ID is not recorded. *)
Theorem other_match_error_dropped :
  forall (s : CoapServer) (now : Z) (msg : Message) (err : option Error) (addr : UDPAddr)
         (e : Error),
    reachesRouting msg err ->
    matchError s msg = Some e ->
    refused (Some e) = false ->
    messageIds s !! MessageId msg = None ->
    handleMessage s now msg err addr = (s, EvMessage msg true :: errorEvents err).
Proof.
  intros s now msg err addr e Hr He Href Hnew.
  rewrite (handleMessage_routes _ _ _ _ _ Hr).
  assert (E : routeMessage s now msg addr = (s, [])).
  { unfold matchError, matched in He. unfold routeMessage.
    destruct (MatchingRoute _ _ _ _) as [[rt attrs] e']. simpl in He. subst e'.
    rewrite Hnew. destruct e; try discriminate Href; reflexivity. }
  rewrite E. cbn [fst snd]. rewrite app_nil_r. reflexivity.
Qed.

Lemma observeStep_other (s : CoapServer) (msg : Message) (addr : UDPAddr) :
  isObserveRequest msg = false -> observeStep s msg addr = (s, msg, []).
Proof.
  unfold isObserveRequest, observeStep.
  destruct (MessageType msg =? TYPE_CONFIRMABLE); [|reflexivity].
  destruct (GetOption msg OPTION_OBSERVE) as [o|]; [|reflexivity].
  destruct (OptValue o); [reflexivity | discriminate].
Qed.

(** X14: a served request that is no observe request reaches the handler
    as it came in.  The message ID is recorded with the current time, the
    registry is untouched, the handler of the matched route is called
    once with the inbound message and the path attributes, and what is
    sent is, in this order, the bare Acknowledgement of the request's
    message ID if the request is Confirmable and the route acknowledges
    automatically, and the handler's response if there is one and it
    validates. *)
Theorem served_request :
  forall (s : CoapServer) (now : Z) (msg : Message) (err : option Error) (addr : UDPAddr)
         (rt : Route) (attrs : list (string * string)),
    reachesRouting msg err ->
    matched s msg = (Some rt, attrs, None) ->
    messageIds s !! MessageId msg = None ->
    isObserveRequest msg = false ->
    fst (handleMessage s now msg err addr)
    = withMessageIds s (<[MessageId msg := now]> (messageIds s)) /\
    handlerCalls (snd (handleMessage s now msg err addr))
    = [(rt, NewClientRequestFromMessage msg attrs addr)] /\
    sent (snd (handleMessage s now msg err addr))
    = (if (MessageType msg =? TYPE_CONFIRMABLE) && AutoAck rt
       then [(NewMessage TYPE_ACKNOWLEDGEMENT COAPCODE_0_EMPTY (MessageId msg), addr)]
       else []) ++
      match Handler rt (NewClientRequestFromMessage msg attrs addr) with
      | NilResponse => []
      | MessageResponse respMsg =>
          match ValidateMessage respMsg with
          | None => [(respMsg, addr)]
          | Some _ => []
          end
      end.
Proof.
  intros s now msg err addr rt attrs Hr Hmatch Hnew Hobs.
  assert (He : matchError s msg = None) by (unfold matchError; rewrite Hmatch; reflexivity).
  rewrite (handleMessage_routes _ _ _ _ _ Hr), (routeMessage_serves _ _ _ _ He Hnew).
  unfold matchedRoute, matchedAttributes. rewrite Hmatch. cbn [fst snd].
  unfold serve. rewrite (observeStep_other _ _ _ Hobs). cbn [fst snd sent handlerCalls app].
  rewrite !sent_app, !handlerCalls_app, sent_errorEvents, handlerCalls_errorEvents,
    handlerCalls_respond.
  unfold respond.
  destruct ((MessageType msg =? TYPE_CONFIRMABLE) && AutoAck rt);
    (destruct (Handler rt _) as [|m]; [|destruct (ValidateMessage m)]);
    repeat split.
Qed.

Lemma matched_same_routes (s s' : CoapServer) (msg : Message) :
  routes s' = routes s -> matched s' msg = matched s msg.
Proof. unfold matched. intros ->. reflexivity. Qed.

(** X15: deduplication works for what has been served: after a request
    with a fresh message ID has been served, the same message arriving
    again, at any later time, is not served again.  No handler runs, the
    server stays as the first call left it, a Confirmable repeat is
    answered by one Reset with the same message ID and any other repeat
    by nothing. *)
Theorem served_request_repeated :
  forall (s : CoapServer) (now now' : Z) (msg : Message) (err : option Error) (addr : UDPAddr)
         (rt : Route) (attrs : list (string * string)),
    reachesRouting msg err ->
    matched s msg = (Some rt, attrs, None) ->
    messageIds s !! MessageId msg = None ->
    let s1 := fst (handleMessage s now msg err addr) in
    messageIds s1 !! MessageId msg = Some now /\
    fst (handleMessage s1 now' msg err addr) = s1 /\
    handlerCalls (snd (handleMessage s1 now' msg err addr)) = [] /\
    (MessageType msg = TYPE_CONFIRMABLE ->
       exists ret, sent (snd (handleMessage s1 now' msg err addr)) = [(ret, addr)] /\
                   MessageType ret = TYPE_RESET /\
                   MessageId ret = MessageId msg) /\
    (MessageType msg <> TYPE_CONFIRMABLE ->
       sent (snd (handleMessage s1 now' msg err addr)) = []).
Proof.
  intros s now now' msg err addr rt attrs Hr Hmatch Hnew s1.
  assert (He : matchError s msg = None) by (unfold matchError; rewrite Hmatch; reflexivity).
  assert (Hs1 : s1 = fst (serve s now msg addr (matchedRoute s msg) (matchedAttributes s msg))).
  { subst s1. rewrite (handleMessage_routes _ _ _ _ _ Hr), (routeMessage_serves _ _ _ _ He Hnew).
    reflexivity. }
  destruct (serve_frame s now msg addr (matchedRoute s msg) (matchedAttributes s msg))
    as (Hroutes & _ & Hids).
  rewrite <- Hs1 in Hroutes, Hids.
  assert (Hseen : messageIds s1 !! MessageId msg = Some now).
  { rewrite Hids. apply lookup_insert_eq. }
  assert (He1 : refused (matchError s1 msg) = false).
  { unfold matchError. rewrite (matched_same_routes s s1 msg Hroutes), Hmatch. reflexivity. }
  split; [exact Hseen|].
  rewrite (handleMessage_routes _ _ _ _ _ Hr), (routeMessage_duplicate _ _ _ _ _ He1 Hseen).
  cbn [fst snd sent handlerCalls].
  rewrite sent_app, handlerCalls_app, sent_errorEvents, handlerCalls_errorEvents.
  split; [reflexivity|].
  split; [destruct (MessageType msg =? TYPE_CONFIRMABLE); reflexivity|].
  split.
  - intros Hc. rewrite Hc. cbn.
    eexists. split; [reflexivity|].
    destruct (CloneOptions_header echoed (EmptyMessage (MessageId msg) TYPE_RESET) msg)
      as (Ht & _ & Hi & _).
    split; [exact Ht | exact Hi].
  - intros Hn. apply Z.eqb_neq in Hn. rewrite Hn. reflexivity.
Qed.

(** X16: the registry changes for observe requests only: for every
    message that is not a Confirmable message with a valueless Observe
    option in front, the dispatcher leaves the observations as they are,
    whichever branch it takes. *)
Theorem registry_changes_only_for_observe_requests :
  forall (s : CoapServer) (now : Z) (msg : Message) (err : option Error) (addr : UDPAddr),
    isObserveRequest msg = false ->
    observations (fst (handleMessage s now msg err addr)) = observations s.
Proof.
  intros s now msg err addr Hobs.
  destruct (handleMessage_state s now msg err addr) as [E|E]; rewrite E; [reflexivity|].
  unfold routeMessage.
  destruct (MatchingRoute _ _ _ _) as [[rt attrs] e].
  assert (Hserve : observations (fst (serve s now msg addr rt attrs)) = observations s).
  { unfold serve. destruct rt as [rt|]; [|reflexivity].
    rewrite (observeStep_other _ _ _ Hobs). reflexivity. }
  destruct e as [[| | | |w]|]; try reflexivity;
    destruct (messageIds s !! MessageId msg);
    try (destruct (MessageType msg =? TYPE_CONFIRMABLE); reflexivity);
    try reflexivity; exact Hserve.
Qed.

(** ** The observation registry *)

Lemma samePeer_refl (addr : UDPAddr) (token resource : string) :
  samePeer addr (NewObservation addr token resource) = true.
Proof. unfold samePeer. simpl. apply String.eqb_refl. Qed.

Lemma firstPeer_snoc (addr : UDPAddr) (obs : list Observation) (o : Observation) :
  existsb (samePeer addr) obs = false ->
  samePeer addr o = true ->
  firstPeer addr (obs ++ [o]) = Some (length obs).
Proof.
  intros Hex Ho. induction obs as [|x obs IH]; simpl.
  - rewrite Ho. reflexivity.
  - simpl in Hex. apply orb_false_iff in Hex as [Hx Hrest].
    rewrite Hx, (IH Hrest). reflexivity.
Qed.

Lemma firstPeer_bound (addr : UDPAddr) (obs : list Observation) (idx : nat) :
  firstPeer addr obs = Some idx -> (idx < length obs)%nat.
Proof.
  revert idx. induction obs as [|o obs IH]; intros idx; simpl; [discriminate|].
  destruct (samePeer addr o); [intros [= <-]; lia|].
  destruct (firstPeer addr obs) as [i|]; [|discriminate].
  intros [= <-]. specialize (IH i eq_refl). lia.
Qed.

(** X17: registering makes the peer an observer and touches nothing else:
    afterwards [hasObservation] holds for the pair, the resource has one
    observation more, the new one standing last with the given token and
    counter 0, and the observations of every other resource are as
    before. *)
Theorem addObservation_registers :
  forall (s : CoapServer) (resource token : string) (addr : UDPAddr),
    hasObservation (addObservation s resource token addr) resource addr = true /\
    observations (addObservation s resource token addr) !! resource
    = Some (default [] (observations s !! resource)
            ++ [mkObservation addr token resource 0]) /\
    (forall other, other <> resource ->
       observations (addObservation s resource token addr) !! other
       = observations s !! other).
Proof.
  intros s resource token addr.
  unfold hasObservation, addObservation. simpl. rewrite lookup_insert_eq.
  split; [|split].
  - rewrite existsb_app. simpl.
    rewrite (samePeer_refl addr token resource). apply orb_true_iff. right. reflexivity.
  - reflexivity.
  - intros other Hne. apply lookup_insert_ne. congruence.
Qed.

(** X18: registering a peer that was not observing and then cancelling it
    gives back the list of observations the resource had, and the peer is
    not an observer afterwards; the other resources are untouched. *)
Theorem register_then_cancel :
  forall (s : CoapServer) (resource token : string) (addr : UDPAddr),
    hasObservation s resource addr = false ->
    let s' := removeObservation (addObservation s resource token addr) resource addr in
    hasObservation s' resource addr = false /\
    default [] (observations s' !! resource) = default [] (observations s !! resource) /\
    (forall other, other <> resource -> observations s' !! other = observations s !! other).
Proof.
  intros s resource token addr Hhas s'.
  set (old := default [] (observations s !! resource)).
  assert (Hold : existsb (samePeer addr) old = false).
  { subst old. unfold hasObservation in Hhas.
    destruct (observations s !! resource); [exact Hhas | reflexivity]. }
  assert (Hs' : observations s'
                = <[resource := old]> (<[resource := old ++ [NewObservation addr token resource]]>
                                         (observations s))).
  { subst s'. unfold removeObservation, addObservation. simpl. rewrite lookup_insert_eq.
    fold old. rewrite (firstPeer_snoc addr old _ Hold (samePeer_refl addr token resource)).
    simpl. rewrite take_app_length.
    rewrite drop_app_ge by lia.
    replace (S (length old) - length old)%nat with 1%nat by lia. simpl.
    rewrite app_nil_r. reflexivity. }
  split; [|split].
  - unfold hasObservation. rewrite Hs', lookup_insert_eq. exact Hold.
  - rewrite Hs', lookup_insert_eq. reflexivity.
  - intros other Hne. rewrite Hs', !lookup_insert_ne by congruence. reflexivity.
Qed.

Lemma delete_first_peer (addr : UDPAddr) (obs : list Observation) (idx : nat) :
  NoDup ((fun o => UDPAddr_String (Addr o)) <$> obs) ->
  firstPeer addr obs = Some idx ->
  take idx obs ++ drop (S idx) obs = List.filter (fun o => negb (samePeer addr o)) obs.
Proof.
  revert idx. induction obs as [|o obs IH]; intros idx Hnd; simpl; [discriminate|].
  rewrite fmap_cons in Hnd. apply NoDup_cons in Hnd as [Hnotin Hnd].
  destruct (samePeer addr o) eqn:Ho; simpl.
  - intros [= <-]. simpl. rewrite drop_0.
    assert (Hnone : existsb (samePeer addr) obs = false).
    { apply not_true_is_false. intros Hex. apply existsb_exists in Hex as (x & Hin & Hx).
      apply Hnotin. unfold samePeer in Ho, Hx.
      apply String.eqb_eq in Ho. apply String.eqb_eq in Hx.
      rewrite Ho, <- Hx. apply list_elem_of_fmap. exists x. split; [reflexivity|].
      apply list_elem_of_In. exact Hin. }
    clear -Hnone. induction obs as [|x obs IH]; simpl; [reflexivity|].
    simpl in Hnone. apply orb_false_iff in Hnone as [Hx Hrest].
    rewrite Hx. simpl. f_equal. exact (IH Hrest).
  - destruct (firstPeer addr obs) as [i|]; [|discriminate].
    intros [= <-]. simpl. f_equal. exact (IH i Hnd eq_refl).
Qed.

(** X19: cancelling removes one observation, the first of that peer, and
    keeps the others in their order: when the peer observes the resource,
    the resource has one observation less afterwards; and in a registry
    with at most one observation per (resource, peer) pair what is left is
    the list without that peer, so that the peer no longer observes. *)
Theorem removeObservation_cancels :
  forall (s : CoapServer) (resource : string) (addr : UDPAddr) (obs : list Observation),
    observations s !! resource = Some obs ->
    hasObservation s resource addr = true ->
    S (observers (removeObservation s resource addr) resource) = observers s resource /\
    (uniqueObservations s ->
       observations (removeObservation s resource addr) !! resource
       = Some (List.filter (fun o => negb (samePeer addr o)) obs) /\
       hasObservation (removeObservation s resource addr) resource addr = false).
Proof.
  intros s resource addr obs Hobs Hhas.
  unfold hasObservation in Hhas. rewrite Hobs in Hhas.
  destruct (firstPeer_present addr obs Hhas) as [idx Hidx].
  pose proof (firstPeer_bound addr obs idx Hidx) as Hlt.
  assert (Hs' : observations (removeObservation s resource addr) !! resource
                = Some (take idx obs ++ drop (S idx) obs)).
  { unfold removeObservation. rewrite Hobs, Hidx. simpl. apply lookup_insert_eq. }
  split.
  - unfold observers. rewrite Hs', Hobs. simpl.
    rewrite length_app, length_take, length_drop. lia.
  - intros Hu.
    rewrite Hs', (delete_first_peer addr obs idx (Hu resource obs Hobs) Hidx).
    split; [reflexivity|].
    unfold hasObservation. rewrite Hs', (delete_first_peer addr obs idx (Hu resource obs Hobs) Hidx).
    clear. induction obs as [|o obs IH]; simpl; [reflexivity|].
    destruct (samePeer addr o) eqn:Ho; simpl; [exact IH|].
    rewrite Ho, IH. reflexivity.
Qed.

(** ** Notifications *)

(** X20: notifying a resource nobody observes does nothing: when the
    registry has no list for the resource, or an empty one, no message
    goes out, and the server's message IDs, routes, queue and observation
    lists are what they were. *)
Theorem NotifyChange_without_observers :
  forall (c : CoapServer) (resource val : string) (confirm : bool) (mid : Z),
    observers c resource = 0%nat ->
    snd (NotifyChange c resource val confirm mid) = [] /\
    messageIds (fst (NotifyChange c resource val confirm mid)) = messageIds c /\
    routes (fst (NotifyChange c resource val confirm mid)) = routes c /\
    queue (fst (NotifyChange c resource val confirm mid)) = queue c /\
    (forall r, default [] (observations (fst (NotifyChange c resource val confirm mid)) !! r)
               = default [] (observations c !! r)).
Proof.
  intros c resource val confirm mid Hk.
  unfold observers in Hk. unfold NotifyChange.
  destruct (observations c !! resource) as [t|] eqn:Ht; [|repeat split].
  simpl in Hk. apply length_zero_iff_nil in Hk. subst t. simpl.
  repeat split. intros r.
  destruct (decide (resource = r)) as [->|Hne].
  - rewrite lookup_insert_eq, Ht. reflexivity.
  - rewrite lookup_insert_ne by exact Hne. reflexivity.
Qed.

Lemma notifyLoop_tokens (val : string) (t : list Observation) :
  forall req : Message,
    Forall (fun m => In (Token m) (map ObsToken t)) (written (snd (notifyLoop req val t))).
Proof.
  induction t as [|r rest IH]; intros req; [constructor|].
  cbn [notifyLoop].
  set (req4 := AddOption _ _ _). specialize (IH req4).
  destruct (notifyLoop req4 val rest) as [[rest' reqEnd] effs].
  cbn [fst snd written map] in *.
  repeat (constructor; [left; reflexivity|]).
  eapply Forall_impl; [exact IH|]. intros m Hm. right. exact Hm.
Qed.

Lemma notifyLoop_inTurn (val : string) (ty mid : Z) (t : list Observation) :
  forall (req : Message) (cur : option Message),
    MessageType req = ty ->
    MessageId req = mid ->
    Forall countInRange t ->
    notifiesInTurn val ty mid t (notifications cur (snd (notifyLoop req val t))).
Proof.
  induction t as [|r rest IH]; intros req cur Hty Hid Hrange; [exact I|].
  pose proof (notifyLoop_notifications val ty mid (r :: rest) req cur Hty Hid Hrange) as Hn.
  apply Forall_cons in Hrange as [Hr Hrest].
  cbn [notifyLoop] in *.
  set (req4 := AddOption _ _ _) in *.
  specialize (IH req4 (Some req4) Hty Hid Hrest).
  pose proof (notifyLoop_tokens val rest req4) as Htok.
  destruct (notifyLoop req4 val rest) as [[rest' reqEnd] effs].
  cbn [fst snd notifications notifiesInTurn] in *.
  apply Forall2_cons in Hn as [Hhead _].
  split; [exact Hhead|]. split; [|exact IH].
  constructor; [left; reflexivity|].
  eapply Forall_impl; [exact Htok|]. intros m Hm. right. exact Hm.
Qed.

(** X21: without [confirm] the notifications are Acknowledgement-type
    messages, sent the same way: one [SendTo] per observation handed to a
    goroutine, addressed to the peer, none sent by the call itself.
    Whatever state of the call's request a send reads, it has the call's
    message ID and the payload and contains Observe with the peer's counter
    plus one, and its token is the token of that observation or of a
    later one of the list.  The registry keeps the incremented
    counters. *)
Theorem NotifyChange_unconfirmed :
  forall (c : CoapServer) (resource val : string) (mid : Z) (t : list Observation),
    observations c !! resource = Some t ->
    Forall countInRange t ->
    Forall2 (fun o e => e = SendTo (Addr o)) t
            (spawned (snd (NotifyChange c resource val false mid))) /\
    notifiesInTurn val TYPE_ACKNOWLEDGEMENT mid t
                   (notifications None (snd (NotifyChange c resource val false mid))) /\
    sent (snd (NotifyChange c resource val false mid)) = [] /\
    observations (fst (NotifyChange c resource val false mid)) !! resource
    = Some (map notifiedOnce t).
Proof.
  intros c resource val mid t Hobs Hrange.
  unfold NotifyChange. rewrite Hobs.
  set (req := NewRequest TYPE_ACKNOWLEDGEMENT COAPCODE_205_CONTENT mid).
  pose proof (notifyLoop_inTurn val TYPE_ACKNOWLEDGEMENT mid t req None
                eq_refl eq_refl Hrange) as Hn.
  pose proof (notifyLoop_counts val t req Hrange) as Ht.
  pose proof (notifyLoop_spawned val t req) as [Hsp Hsent].
  destruct (notifyLoop req val t) as [[t' reqEnd] effs].
  cbn [fst snd] in *. subst t'.
  split; [exact Hsp|]. split; [exact Hn|]. split; [exact Hsent|].
  simpl. apply lookup_insert_eq.
Qed.

Lemma countInRange2_once (t : list Observation) :
  Forall countInRange2 t -> Forall countInRange t /\ Forall countInRange (map notifiedOnce t).
Proof.
  intros Hr. split.
  - eapply Forall_impl; [exact Hr|]. unfold countInRange2, countInRange. intros o Ho. simpl in *. lia.
  - apply Forall_fmap. eapply Forall_impl; [exact Hr|].
    unfold countInRange2, countInRange. intros o Ho. simpl in *. lia.
Qed.

(** X22: sequence numbers go up by one from one [NotifyChange] to the
    next: when a resource is notified twice, the sends of the second call
    go to the same peers in the same order, whatever state of the second
    call's request a send reads contains an Observe option with that
    peer's counter before the first call plus two, and these are the
    counters the registry holds afterwards. *)
Theorem NotifyChange_twice :
  forall (c : CoapServer) (resource val1 val2 : string) (confirm1 : bool) (mid1 mid2 : Z)
         (t : list Observation),
    observations c !! resource = Some t ->
    Forall countInRange2 t ->
    let c1 := fst (NotifyChange c resource val1 confirm1 mid1) in
    Forall2 (fun o g =>
               fst g = Addr o /\
               snd g <> [] /\
               Forall (fun m => In (observeSequence (NotifyCount o + 2)) (Options m)) (snd g))
            t (notifications None (snd (NotifyChange c1 resource val2 true mid2))) /\
    observations (fst (NotifyChange c1 resource val2 true mid2)) !! resource
    = Some (map (fun o => withNotifyCount o (NotifyCount o + 2)) t).
Proof.
  intros c resource val1 val2 confirm1 mid1 mid2 t Hobs Hrange c1.
  destruct (countInRange2_once t Hrange) as [Hr1 Hr2].
  assert (Hc1 : observations c1 !! resource = Some (map notifiedOnce t)).
  { subst c1. unfold NotifyChange. rewrite Hobs.
    set (req := if confirm1 then _ else _).
    pose proof (notifyLoop_counts val1 t req Hr1) as Ht.
    destruct (notifyLoop req val1 t) as [[t' reqEnd] effs].
    cbn [fst snd] in *. subst t'. simpl. apply lookup_insert_eq. }
  unfold NotifyChange at 1 2. rewrite Hc1.
  set (req := NewRequest TYPE_CONFIRMABLE COAPCODE_205_CONTENT mid2).
  pose proof (notifyLoop_notifications val2 TYPE_CONFIRMABLE mid2 (map notifiedOnce t) req None
                eq_refl eq_refl Hr2) as He.
  pose proof (notifyLoop_counts val2 (map notifiedOnce t) req Hr2) as Ht.
  destruct (notifyLoop req val2 (map notifiedOnce t)) as [[t' reqEnd] effs].
  cbn [fst snd] in *. subst t'. split.
  - change (map notifiedOnce t) with (notifiedOnce <$> t) in He.
    apply (proj1 (Forall2_fmap_l _ _ _ _)) in He. eapply Forall2_impl; [exact He|].
    intros o g (Haddr & Hne & Hall).
    split; [exact Haddr|]. split; [exact Hne|].
    eapply Forall_impl; [exact Hall|].
    intros m (_ & _ & _ & Hin).
    unfold notifiedOnce in Hin. cbn [NotifyCount withNotifyCount] in Hin.
    replace (NotifyCount o + 2) with (NotifyCount o + 1 + 1) by lia. exact Hin.
  - simpl. rewrite lookup_insert_eq. f_equal.
    rewrite map_map. apply map_ext. intros o.
    unfold notifiedOnce, withNotifyCount. simpl. f_equal. lia.
Qed.

Lemma GetOption_AddOptions (m : Message) (os : list CoapOption) (c : OptionCode) (o : CoapOption) :
  GetOption m c = Some o -> GetOption (AddOptions m os) c = Some o.
Proof.
  unfold GetOption, GetOptions, AddOptions. simpl. rewrite List.filter_app.
  destruct (List.filter _ (Options m)); [discriminate|]. simpl. auto.
Qed.

Lemma notifyLoop_written_Observe (val : string) (x : CoapOption) (t : list Observation) :
  forall req : Message,
    GetOption req OPTION_OBSERVE = Some x ->
    Forall (fun m => GetOption m OPTION_OBSERVE = Some x) (written (snd (notifyLoop req val t))).
Proof.
  induction t as [|r rest IH]; intros req Hreq; [constructor|].
  cbn [notifyLoop].
  set (req4 := AddOption _ _ _).
  assert (H3 : GetOption (SetRequestURI (SetStringPayload (SetToken req (ObsToken r)) val)
                                        (Resource r)) OPTION_OBSERVE = Some x).
  { unfold SetRequestURI. apply GetOption_AddOptions. exact Hreq. }
  assert (H4 : GetOption req4 OPTION_OBSERVE = Some x).
  { subst req4. unfold AddOption. apply GetOption_AddOptions. exact H3. }
  specialize (IH req4 H4).
  destruct (notifyLoop req4 val rest) as [[rest' reqEnd] effs].
  cbn [fst snd written] in *.
  constructor; [exact Hreq|]. constructor; [exact Hreq|].
  constructor; [exact H3|]. constructor; [exact H4 | exact IH].
Qed.

Lemma notifyLoop_first_Observe (val : string) (x : CoapOption) (t : list Observation) :
  forall (req : Message) (cur : option Message),
    GetOption req OPTION_OBSERVE = Some x ->
    Forall (fun g => Forall (fun m => GetOption m OPTION_OBSERVE = Some x) (snd g))
           (notifications cur (snd (notifyLoop req val t))).
Proof.
  induction t as [|r rest IH]; intros req cur Hreq; [constructor|].
  cbn [notifyLoop].
  set (req4 := AddOption _ _ _).
  assert (H4 : GetOption req4 OPTION_OBSERVE = Some x).
  { subst req4. unfold AddOption, SetRequestURI.
    apply GetOption_AddOptions, GetOption_AddOptions. exact Hreq. }
  specialize (IH req4 (Some req4) H4).
  pose proof (notifyLoop_written_Observe val x rest req4 H4) as Hw.
  destruct (notifyLoop req4 val rest) as [[rest' reqEnd] effs].
  cbn [fst snd notifications] in *.
  constructor; [|exact IH]. cbn [snd]. constructor; [exact H4 | exact Hw].
Qed.

(** X23: one request object serves all notifications of a call, and
    options are only ever appended to it.  So, as long as the path options
    of a resource contain no Observe option, every notification of one
    [NotifyChange], whatever state of the request its send reads, has as
    its first Observe option, the one [GetOption] finds, the sequence
    number of the first observer of the resource. *)
Theorem NotifyChange_first_Observe_option :
  forall (c : CoapServer) (resource val : string) (confirm : bool) (mid : Z)
         (o : Observation) (rest : list Observation),
    (forall uri, List.filter (fun x => OptCode x =? OPTION_OBSERVE) (NewPathOptions uri) = []) ->
    observations c !! resource = Some (o :: rest) ->
    countInRange o ->
    length (spawned (snd (NotifyChange c resource val confirm mid))) = S (length rest) /\
    length (notifications None (snd (NotifyChange c resource val confirm mid)))
    = S (length rest) /\
    Forall (fun g =>
              Forall (fun m => GetOption m OPTION_OBSERVE
                               = Some (observeSequence (NotifyCount o + 1)))
                     (snd g))
           (notifications None (snd (NotifyChange c resource val confirm mid))).
Proof.
  intros c resource val confirm mid o rest Hpath Hobs Hr.
  unfold NotifyChange. rewrite Hobs.
  set (req := if confirm then _ else _).
  pose proof (notifyLoop_spawned val (o :: rest) req) as [Hsp _].
  apply Forall2_length in Hsp.
  assert (Hlen : length (notifications None (snd (notifyLoop req val (o :: rest))))
                 = length (spawned (snd (notifyLoop req val (o :: rest))))).
  { generalize (@None Message). generalize req. clear.
    induction (o :: rest) as [|r l IH]; intros req cur; [reflexivity|].
    cbn [notifyLoop]. set (req4 := AddOption _ _ _).
    specialize (IH req4 (Some req4)).
    destruct (notifyLoop req4 val l) as [[rest' reqEnd] effs].
    cbn [fst snd notifications spawned length] in *. rewrite IH. reflexivity. }
  cbn [notifyLoop] in *.
  set (req4 := AddOption _ _ _) in *.
  assert (H4 : GetOption req4 OPTION_OBSERVE = Some (observeSequence (NotifyCount o + 1))).
  { subst req4. unfold GetOption, GetOptions, AddOption, AddOptions, SetRequestURI, AddOptions.
    simpl. rewrite !List.filter_app, Hpath.
    assert (Hnil : Options req = []) by (subst req; destruct confirm; reflexivity).
    rewrite Hnil. simpl.
    rewrite wrapInt_in_range by (unfold countInRange in Hr; lia). reflexivity. }
  pose proof (notifyLoop_first_Observe val _ rest req4 (Some req4) H4) as Hall.
  pose proof (notifyLoop_written_Observe val _ rest req4 H4) as Hw.
  destruct (notifyLoop req4 val rest) as [[rest' reqEnd] effs].
  cbn [fst snd spawned notifications length] in *.
  split; [symmetry; exact Hsp|]. split; [rewrite Hlen; symmetry; exact Hsp|].
  constructor; [|exact Hall]. cbn [snd]. constructor; [exact H4 | exact Hw].
Qed.

Lemma notifyLoop_subscriptions (val : string) (t : list Observation) :
  forall req : Message,
    subscription <$> fst (fst (notifyLoop req val t)) = subscription <$> t.
Proof.
  induction t as [|r rest IH]; intros req; [reflexivity|].
  cbn [notifyLoop].
  set (req4 := AddOption _ _ _). specialize (IH req4).
  destruct (notifyLoop req4 val rest) as [[rest' reqEnd] effs].
  cbn [fst snd] in *. rewrite !fmap_cons, IH. reflexivity.
Qed.

(** X24: a notification changes counters and nothing else: the message
    IDs, the routes and the queue are what they were, the other resources
    keep their observations, and the notified resource keeps its
    observations' peers, tokens and resource names, in order. *)
Theorem NotifyChange_frame :
  forall (c : CoapServer) (resource val : string) (confirm : bool) (mid : Z),
    messageIds (fst (NotifyChange c resource val confirm mid)) = messageIds c /\
    routes (fst (NotifyChange c resource val confirm mid)) = routes c /\
    queue (fst (NotifyChange c resource val confirm mid)) = queue c /\
    (forall other, other <> resource ->
       observations (fst (NotifyChange c resource val confirm mid)) !! other
       = observations c !! other) /\
    subscription <$> default [] (observations (fst (NotifyChange c resource val confirm mid))
                                 !! resource)
    = subscription <$> default [] (observations c !! resource).
Proof.
  intros c resource val confirm mid. unfold NotifyChange.
  destruct (observations c !! resource) as [t|] eqn:Ht.
  - set (req := if confirm then _ else _).
    pose proof (notifyLoop_subscriptions val t req) as Hsub.
    destruct (notifyLoop req val t) as [[t' reqEnd] effs]. cbn [fst snd] in *.
    repeat split.
    + intros other Hne. simpl. apply lookup_insert_ne. congruence.
    + simpl. rewrite lookup_insert_eq. exact Hsub.
  - cbn [fst]. rewrite Ht. repeat split.
Qed.

(** ** The purge of message IDs *)




Lemma observeStep_no_calls (s : CoapServer) (msg : Message) (addr : UDPAddr) :
  handlerCalls (snd (observeStep s msg addr)) = [].
Proof.
  unfold observeStep. repeat break_innermost; reflexivity.
Qed.

Lemma serve_calls_handler (s : CoapServer) (now : Z) (msg : Message) (addr : UDPAddr)
  (rt : Route) (attrs : list (string * string)) :
  exists req, handlerCalls (snd (serve s now msg addr (Some rt) attrs)) = [(rt, req)].
Proof.
  unfold serve.
  pose proof (observeStep_no_calls
                (withMessageIds s (<[MessageId msg := now]> (messageIds s))) msg addr) as Hobs.
  destruct (observeStep _ msg addr) as [[s2 msg'] obsEffs]. cbn [fst snd] in *.
  exists (NewClientRequestFromMessage msg' attrs addr).
  rewrite !handlerCalls_app, Hobs, handlerCalls_respond.
  destruct ((MessageType msg =? TYPE_CONFIRMABLE) && AutoAck rt); reflexivity.
Qed.

(** X27: whether a repeat is recognised depends on the purge alone.  After
    a request with a fresh message ID has been served at time [now] and
    the purge has ticked at [now'], the same message arriving again is
    held back, without a handler call, if its entry was at most
    [MESSAGEID_PURGE_DURATION] nanoseconds old at the tick, and is served
    a second time by the same route if the entry was older. *)
Theorem repeat_after_purge :
  forall (s : CoapServer) (now now' now'' : Z) (msg : Message) (err : option Error)
         (addr : UDPAddr) (rt : Route) (attrs : list (string * string)),
    reachesRouting msg err ->
    matched s msg = (Some rt, attrs, None) ->
    messageIds s !! MessageId msg = None ->
    let s2 := purgeTick now' (fst (handleMessage s now msg err addr)) in
    (Since now' now <= MESSAGEID_PURGE_DURATION ->
       fst (handleMessage s2 now'' msg err addr) = s2 /\
       handlerCalls (snd (handleMessage s2 now'' msg err addr)) = []) /\
    (MESSAGEID_PURGE_DURATION < Since now' now ->
       exists req, handlerCalls (snd (handleMessage s2 now'' msg err addr)) = [(rt, req)]).
Proof.
  intros s now now' now'' msg err addr rt attrs Hr Hmatch Hnew s2.
  assert (He : matchError s msg = None) by (unfold matchError; rewrite Hmatch; reflexivity).
  set (s1 := fst (handleMessage s now msg err addr)) in *.
  assert (Hs1 : s1 = fst (serve s now msg addr (matchedRoute s msg) (matchedAttributes s msg))).
  { subst s1. rewrite (handleMessage_routes _ _ _ _ _ Hr), (routeMessage_serves _ _ _ _ He Hnew).
    reflexivity. }
  destruct (serve_frame s now msg addr (matchedRoute s msg) (matchedAttributes s msg))
    as (Hroutes & _ & Hids).
  rewrite <- Hs1 in Hroutes, Hids.
  assert (Hseen : messageIds s1 !! MessageId msg = Some now).
  { rewrite Hids. apply lookup_insert_eq. }
  assert (Hm2 : matched s2 msg = (Some rt, attrs, None)).
  { rewrite <- Hmatch. apply matched_same_routes. subst s2. simpl. exact Hroutes. }
  rewrite (handleMessage_routes _ _ _ _ _ Hr).
  split.
  - intros Hyoung.
    assert (Hkept : messageIds s2 !! MessageId msg = Some now).
    { subst s2. apply purgeTick_lookup. split; assumption. }
    assert (He2 : refused (matchError s2 msg) = false).
    { unfold matchError. rewrite Hm2. reflexivity. }
    rewrite (routeMessage_duplicate _ _ _ _ _ He2 Hkept).
    cbn [fst snd handlerCalls].
    rewrite handlerCalls_app, handlerCalls_errorEvents.
    split; [reflexivity|].
    destruct (MessageType msg =? TYPE_CONFIRMABLE); reflexivity.
  - intros Hold.
    assert (Hgone : messageIds s2 !! MessageId msg = None).
    { subst s2. exact (purgeTick_drops now' s1 _ now Hseen Hold). }
    assert (He2 : matchError s2 msg = None) by (unfold matchError; rewrite Hm2; reflexivity).
    rewrite (routeMessage_serves _ _ _ _ He2 Hgone).
    unfold matchedRoute, matchedAttributes. rewrite Hm2. cbn [fst snd handlerCalls].
    rewrite handlerCalls_app, handlerCalls_errorEvents.
    apply serve_calls_handler.
Qed.

End FurtherServerProperties.

(** ** The discovery route *)

Lemma string_app_assoc (a b c : string) : (a +:+ b) +:+ c = a +:+ (b +:+ c).
Proof.
  induction a as [|x a IH]; [reflexivity|].
  change (String x ((a +:+ b) +:+ c) = String x (a +:+ (b +:+ c))). rewrite IH. reflexivity.
Qed.

Lemma string_app_nil_l (a : string) : EmptyString +:+ a = a.
Proof. reflexivity. Qed.

Lemma string_app_nil_r (a : string) : a +:+ EmptyString = a.
Proof.
  induction a as [|x a IH]; [reflexivity|].
  change (String x (a +:+ EmptyString) = String x a). rewrite IH. reflexivity.
Qed.

Lemma writeMediaTypes_joined (Itoa : Z -> string) (mts : list Z) :
  forall idx : nat,
    writeMediaTypes Itoa (idx + length mts) idx mts = String.concat " " (map Itoa mts).
Proof.
  induction mts as [|mt rest IH]; intros idx; [reflexivity|].
  cbn [writeMediaTypes map length].
  replace (idx + S (length rest))%nat with (S idx + length rest)%nat by lia.
  rewrite IH.
  destruct rest as [|mt' rest].
  - cbn [length map String.concat].
    replace (idx + 1 <? S idx + 0)%nat with false
      by (symmetry; apply Nat.ltb_ge; lia).
    rewrite !string_app_nil_r. reflexivity.
  - replace (idx + 1 <? S idx + length (mt' :: rest))%nat with true
      by (symmetry; apply Nat.ltb_lt; simpl; lia).
    reflexivity.
Qed.

Lemma writeRoute_entry (Itoa : Z -> string) (r : Route) :
  writeRoute Itoa r
  = if String.eqb (Path r) ".well-known/core" then EmptyString else linkEntry Itoa r.
Proof.
  unfold writeRoute, linkEntry.
  destruct (String.eqb (Path r) ".well-known/core"); [reflexivity|].
  destruct (MediaTypes r) as [|mt rest] eqn:Hm; [reflexivity|].
  pose proof (writeMediaTypes_joined Itoa (mt :: rest) 0) as Hj.
  cbn [length Nat.add] in Hj. cbn [length Nat.ltb Nat.leb].
  rewrite Hj. reflexivity.
Qed.

Lemma discoveryPayload_from (Itoa : Z -> string) (rs : list Route) :
  forall buf : string,
    fold_left (fun b r => b +:+ writeRoute Itoa r) rs buf = buf +:+ discoveryPayload Itoa rs.
Proof.
  unfold discoveryPayload.
  induction rs as [|r rs IH]; intros buf; cbn [fold_left].
  - symmetry. apply string_app_nil_r.
  - rewrite (IH (buf +:+ writeRoute Itoa r)), (IH (EmptyString +:+ writeRoute Itoa r)).
    rewrite string_app_assoc. reflexivity.
Qed.

(** X28: the discovery handler answers with a 2.05 Acknowledgement of the
    request's message ID whose only option is Content-Format 40 and whose
    payload lists the routes in registration order, one entry
    [</path>;ct=m1 m2 ...,] each: the media types are separated by single
    spaces, [;ct=] is left out when a route has none, every entry ends
    with a comma, and routes with path [.well-known/core] are left out.
    The payload of a route list is the concatenation of the payloads of
    its parts. *)
Theorem discoveryRoute_lists_routes :
  forall (Itoa : Z -> string) (rs rs' : list Route) (req : CoapRequest),
    (exists m, discoveryRoute Itoa rs req = MessageResponse m /\
               MessageType m = TYPE_ACKNOWLEDGEMENT /\
               Code m = COAPCODE_205_CONTENT /\
               MessageId m = MessageId (reqMessage req) /\
               Options m = [mkOption OPTION_CONTENT_FORMAT (Some (IntValue 40))] /\
               Payload m = Some (discoveryPayload Itoa rs)) /\
    discoveryPayload Itoa (rs ++ rs') = discoveryPayload Itoa rs +:+ discoveryPayload Itoa rs' /\
    discoveryPayload Itoa rs
    = String.concat EmptyString
        (map (linkEntry Itoa)
             (List.filter (fun r => negb (String.eqb (Path r) ".well-known/core")) rs)).
Proof.
  intros Itoa rs rs' req. split; [|split].
  - eexists. split; [reflexivity|]. repeat split.
  - unfold discoveryPayload at 1. rewrite fold_left_app.
    fold (discoveryPayload Itoa rs). apply discoveryPayload_from.
  - induction rs as [|r rs IH]; [reflexivity|].
    unfold discoveryPayload. cbn [fold_left List.filter].
    rewrite discoveryPayload_from, writeRoute_entry, IH, string_app_nil_l.
    destruct (String.eqb (Path r) ".well-known/core"); cbn [negb map].
    + apply string_app_nil_l.
    + set (l := map _ _). destruct l as [|e l]; cbn [String.concat].
      * apply string_app_nil_r.
      * rewrite string_app_nil_l. reflexivity.
Qed.

(** ** Proxy handlers *)

(** X29: [SetProxy] sets one field and its last call for a proxy type
    decides: a second call for the same type overrides the first, calls
    for the two types commute, a proxy type other than the two known ones
    changes nothing, and disabling brings back the null handler of a new
    server.  Enabling installs [CoapHttpProxyHandler], for the CoAP-CoAP
    proxy as for the CoAP-HTTP one. *)
Theorem SetProxy_last_call_decides :
  forall (s : ProxyHandlers) (t : Z) (e1 e2 : bool),
    SetProxy (SetProxy s t e1) t e2 = SetProxy s t e2 /\
    SetProxy (SetProxy s PROXY_COAP_HTTP e1) PROXY_COAP_COAP e2
    = SetProxy (SetProxy s PROXY_COAP_COAP e2) PROXY_COAP_HTTP e1 /\
    (t <> PROXY_COAP_HTTP -> t <> PROXY_COAP_COAP -> SetProxy s t e1 = s) /\
    SetProxy (SetProxy NewServer_proxies t e1) t false = NewServer_proxies /\
    fnHandleCoapHttpProxy (SetProxy s PROXY_COAP_HTTP true) = CoapHttpProxyHandler /\
    fnHandleCoapCoapProxy (SetProxy s PROXY_COAP_COAP true) = CoapHttpProxyHandler.
Proof.
  intros [http coap] t e1 e2. unfold SetProxy, NewServer_proxies.
  split; [|split; [|split; [|split; [|split]]]].
  - destruct (t =? PROXY_COAP_HTTP) eqn:E1; [destruct e1, e2; rewrite ?E1; reflexivity|].
    destruct (t =? PROXY_COAP_COAP) eqn:E2; destruct e1, e2; rewrite ?E1, ?E2; reflexivity.
  - destruct e1, e2; reflexivity.
  - intros H0 H1. apply Z.eqb_neq in H0, H1. rewrite H0, H1. reflexivity.
  - destruct (t =? PROXY_COAP_HTTP) eqn:E1; [destruct e1; rewrite ?E1; reflexivity|].
    destruct (t =? PROXY_COAP_COAP) eqn:E2; destruct e1; rewrite ?E1, ?E2; reflexivity.
  - reflexivity.
  - reflexivity.
Qed.

(** * The properties on the sample server *)

#[local] Existing Instance sample.

(** ** Duplicates *)

(** C1 fails as stated: message 1234 is on record, yet the Confirmable GET
    with that ID for a path without a route is answered by a "not found"
    Acknowledgement and by no Reset, and the non-Confirmable one is
    answered too. *)
Lemma duplicate_without_route_counterexample :
  messageIds seenServer !! 1234 = Some 0 /\
  map (fun p => (MessageType (fst p), Code (fst p)))
      (sent (snd (handleMessage seenServer 9 getTemp None peerA)))
  = [(TYPE_ACKNOWLEDGEMENT, COAPCODE_404_NOT_FOUND)] /\
  (~ exists ret a, In (ret, a) (sent (snd (handleMessage seenServer 9 getTemp None peerA))) /\
                   MessageType ret = TYPE_RESET) /\
  sent (snd (handleMessage seenServer 9 getTempNon None peerA)) <> [].
Proof.
  split; [reflexivity|]. split; [reflexivity|]. split.
  - intros (ret & a & Hin & Hty). vm_compute in Hin.
    destruct Hin as [E|[]]. injection E as <- _. discriminate Hty.
  - vm_compute. discriminate.
Qed.

Lemma duplicate_yields_Reset_or_silence_witness :
  messageIds seenTempServer !! MessageId getTemp = Some 0 /\
  fst (handleMessage seenTempServer 9 getTemp None peerA) = seenTempServer /\
  handlerCalls (snd (handleMessage seenTempServer 9 getTemp None peerA)) = [] /\
  exists ret, sent (snd (handleMessage seenTempServer 9 getTemp None peerA)) = [(ret, peerA)] /\
              MessageType ret = TYPE_RESET /\ MessageId ret = MessageId getTemp.
Proof.
  assert (Hr : reachesRouting getTemp None).
  { repeat split; try discriminate; reflexivity. }
  assert (Hm : refused (matchError seenTempServer getTemp) = false) by reflexivity.
  assert (Hs : messageIds seenTempServer !! MessageId getTemp = Some 0) by reflexivity.
  destruct (duplicate_yields_Reset_or_silence seenTempServer 9 getTemp None peerA 0 Hr Hm Hs)
    as (Hst & Hcalls & Hcon & _).
  split; [exact Hs|]. split; [exact Hst|]. split; [exact Hcalls|].
  apply Hcon. reflexivity.
Defined.

(** ** Requests without a route *)

(** C2 fails as stated: after the "not found" reply the message ID of the
    request is not in the set of message IDs. *)
Lemma unrouted_GET_not_recorded :
  matchError NewServer getTemp = Some ERR_NO_MATCHING_ROUTE /\
  map (fun p => Code (fst p)) (sent (snd (handleMessage NewServer 5 getTemp None peerA)))
  = [COAPCODE_404_NOT_FOUND] /\
  messageIds (fst (handleMessage NewServer 5 getTemp None peerA)) !! MessageId getTemp = None.
Proof. repeat split. Qed.

Lemma unrouted_GET_not_found_witness :
  fst (handleMessage NewServer 5 getTemp None peerA) = NewServer /\
  handlerCalls (snd (handleMessage NewServer 5 getTemp None peerA)) = [] /\
  exists ret,
    sent (snd (handleMessage NewServer 5 getTemp None peerA)) = [(ret, peerA)] /\
    MessageType ret = TYPE_ACKNOWLEDGEMENT /\
    Code ret = COAPCODE_404_NOT_FOUND /\
    MessageId ret = 1234 /\
    Token ret = "tk"%string /\
    GetOptions ret OPTION_URI_PATH = [pathOption "temp"].
Proof.
  apply (unrouted_GET_not_found NewServer 5 getTemp None peerA);
    try reflexivity; discriminate.
Defined.

(** ** Tokens of error replies *)

(** C9 at a PUT for [temp], which is routed for GET only: the "method not
    allowed" reply carries the empty token, not the request's token
    ["tk"]. *)
Theorem method_not_allowed_drops_token :
  matchError tempServer putTemp = Some ERR_NO_MATCHING_METHOD /\
  exists ret,
    sent (snd (handleMessage tempServer 5 putTemp None peerA)) = [(ret, peerA)] /\
    Code ret = COAPCODE_405_METHOD_NOT_ALLOWED /\
    Token ret = EmptyString /\
    Token ret <> Token putTemp.
Proof.
  assert (Hm : matchError tempServer putTemp = Some ERR_NO_MATCHING_METHOD) by reflexivity.
  assert (Hr : reachesRouting putTemp None).
  { repeat split; try discriminate; reflexivity. }
  split; [exact Hm|].
  destruct (method_not_allowed_reply tempServer 5 putTemp None peerA Hr Hm)
    as (ret & Hs & Hc & Ht).
  exists ret. repeat split; try assumption.
  rewrite Ht. discriminate.
Qed.

(** ** Reset messages *)

(** C7 fails as stated: the queue holds a delivery for message 7, and
    after the Reset for message 7 it still does. *)
Lemma Reset_leaves_pending_item :
  MessageId resetSeven = 7 /\
  pendingIds pendingHeap (queue pendingServer) = [7] /\
  pendingIds pendingHeap (queue (fst (handleMessage pendingServer 0 resetSeven None peerA))) = [7].
Proof. repeat split. Qed.

Lemma handleMessage_Reset_witness :
  handleMessage pendingServer 0 resetSeven None peerA
  = (pendingServer, [EvMessage resetSeven true]) /\
  sent (snd (handleMessage pendingServer 0 resetSeven None peerA)) = [] /\
  handlerCalls (snd (handleMessage pendingServer 0 resetSeven None peerA)) = [] /\
  queue (fst (handleMessage pendingServer 0 resetSeven None peerA)) = queue pendingServer.
Proof.
  apply (handleMessage_Reset pendingServer 0 resetSeven None peerA). reflexivity.
Defined.

(** ** Observe requests *)



(** ** The observation registry *)

(** C5 fails as stated: [peerA] already observes [temp], and registering
    it again adds a second Observation for the same pair. *)
Lemma addObservation_duplicates :
  hasObservation observedServer "temp" peerA = true /\
  observers observedServer "temp" = 1%nat /\
  observers (addObservation observedServer "temp" "tk" peerA) "temp" = 2%nat /\
  map (fun o => UDPAddr_String (Addr o))
      (default [] (observations (addObservation observedServer "temp" "tk" peerA) !! "temp"%string))
  = ["10.0.0.1:40001"; "10.0.0.1:40001"]%string.
Proof. repeat split. Qed.

Lemma observedServer_unique : uniqueObservations observedServer.
Proof.
  intros resource obs Hobs.
  destruct (decide (resource = "temp"%string)) as [->|Hne].
  - vm_compute in Hobs. injection Hobs as <-. simpl.
    apply NoDup_singleton.
  - unfold observedServer in Hobs. simpl in Hobs.
    rewrite lookup_singleton_ne in Hobs by congruence. discriminate.
Qed.

Lemma registry_stays_unique_witness :
  removeObservation observedServer "temp" peerB = observedServer /\
  uniqueObservations (addObservation observedServer "temp" "tkB" peerB) /\
  uniqueObservations (removeObservation observedServer "temp" peerB) /\
  uniqueObservations (fst (handleMessage observedServer 5 observeTemp None peerB)).
Proof.
  destruct (registry_stays_unique observedServer "temp" "tkB" peerB) as (Hrem & Hu).
  destruct (Hu observedServer_unique) as (Hadd & Hrm & Hdisp).
  split; [apply Hrem; reflexivity|].
  split; [apply Hadd; reflexivity|].
  split; [exact Hrm | apply Hdisp].
Defined.

(** ** Notifications *)



(** The one request object is written to by every iteration: every state
    the second send can read still contains the Observe option added for
    the first observer, before its own, and after the loop the request
    has the token of the last observer. *)
Lemma NotifyChange_shares_request :
  map (fun g => map (fun m => GetOptions m OPTION_OBSERVE) (snd g))
      (notifications None (snd (NotifyChange twoObservers "temp" "21.5" true 77)))
  = [[[observeSequence 4]; [observeSequence 4]; [observeSequence 4]; [observeSequence 4];
      [observeSequence 4; observeSequence 9]];
     [[observeSequence 4; observeSequence 9]]] /\
  Token (snd (fst (notifyLoop (NewRequest TYPE_CONFIRMABLE COAPCODE_205_CONTENT 77) "21.5"
                              [mkObservation peerA "tkA" "temp" 3;
                               mkObservation peerB "tkB" "temp" 8])))
  = "tkB"%string.
Proof. split; reflexivity. Qed.

(** ** The delivery queue *)

(** The queue of the sample server points to one item, for message 7,
    which was never sent again. *)
Lemma pendingQueue_item :
  pendingIds pendingHeap pendingQueue = [7] /\ retries (pendingHeap 1%nat) = 0.
Proof. split; reflexivity. Qed.

(** ** The purge of message IDs *)

(** C8 at a ticker period of 60 seconds: message 42 was seen one second
    before the tick, well inside the period, and the tick deletes its
    entry, since the loop compares the age in nanoseconds with the bare
    constant 60; the same message ID arriving again is then served as a new
    request. *)
Theorem purge_drops_entry_within_period :
  purgeTickerPeriod = 60 * Second /\
  messageIds agedServer !! 42 = Some (59 * Second) /\
  Since (60 * Second) (59 * Second) = 1 * Second /\
  1 * Second < purgeTickerPeriod /\
  messageIds (purgeTick (60 * Second) agedServer) !! 42 = None /\
  map fst (handlerCalls (snd (handleMessage (purgeTick (60 * Second) agedServer)
                                            (60 * Second) getTemp42 None peerA)))
  = [tempRoute].
Proof. repeat split. Qed.

(** ** Further properties on the sample inputs *)

Lemma DefaultQueue_Push_Pop_witness :
  exists h1 q1 h2,
    DefaultQueue_Push pendingHeap pendingQueue (Some 2%nat) = Returns (h1, q1) /\
    DefaultQueue_Pop h1 q1 = Returns (h2, Some 2%nat, pendingQueue) /\
    index (h2 2%nat) = -1.
Proof.
  destruct (DefaultQueue_Push_Pop pendingHeap pendingQueue [Some 1%nat] 2 eq_refl)
    as (h1 & q1 & Hpush & _ & h2 & Hpop & Hidx & _).
  exists h1, q1, h2. split; [exact Hpush|]. split; [exact Hpop|].
  rewrite Hidx. reflexivity.
Defined.

Lemma pendingItem_wellIndexed : wellIndexed pendingHeap [Some 1%nat].
Proof.
  intros i a Hi. destruct i as [|i]; simpl in Hi; [|discriminate].
  injection Hi as <-. reflexivity.
Qed.

Lemma twoItems_wellIndexed : wellIndexed pendingHeap twoItems.
Proof.
  intros i a Hi. destruct i as [|[|i]]; simpl in Hi; try discriminate;
    injection Hi as <-; reflexivity.
Qed.

Lemma fresh_pointer : Some 2%nat ∉ [Some 1%nat].
Proof. intros Hin. apply list_elem_of_singleton in Hin. discriminate. Qed.

Lemma PriorityQueue_index_invariant_witness :
  wellIndexed (setIndex pendingHeap 2 1) twoItems.
Proof.
  destruct (PriorityQueue_index_invariant pendingHeap [Some 1%nat] pendingItem_wellIndexed)
    as (Hpush & _).
  destruct (Hpush 2%nat (setIndex pendingHeap 2 1) twoItems fresh_pointer eq_refl) as (Hw & _).
  exact Hw.
Defined.

Lemma PriorityQueue_Less_strict_order_witness :
  PriorityQueue_Less pendingHeap twoItems 0 0 <> Returns true.
Proof.
  destruct (PriorityQueue_Less_strict_order pendingHeap twoItems 0 0 0) as (_ & Hirr & _).
  exact Hirr.
Defined.

Lemma PriorityQueue_Swap_exchanges_witness :
  exists h' pq',
    PriorityQueue_Swap pendingHeap twoItems 0 1 = Returns (h', pq') /\
    pq' = [Some 2%nat; Some 1%nat] /\
    index (h' 1%nat) = 1 /\
    index (h' 2%nat) = 0.
Proof.
  assert (Hne : 1%nat <> 2%nat) by discriminate.
  destruct (PriorityQueue_Swap_exchanges pendingHeap twoItems 0 1 1 2 eq_refl eq_refl)
    as (h' & pq' & Hswap & _ & _ & _ & _ & Ha & Hb & _).
  exists h', pq'. split; [exact Hswap|].
  split; [injection Hswap as _ <-; reflexivity|].
  split; [rewrite Ha; reflexivity | rewrite (Hb Hne); reflexivity].
Defined.

Lemma handleMessage_frame_witness :
  messageIds (fst (handleMessage seenTempServer 9 getTemp42 None peerA)) !! 1234 = Some 0.
Proof.
  destruct (@handleMessage_frame sample seenTempServer 9 getTemp42 None peerA) as (_ & _ & Hkeep & _).
  apply Hkeep. reflexivity.
Defined.

Lemma Acknowledgement_only_notifies_witness :
  snd (handleMessage tempServer 5 ackObserve None peerA)
  = [EvMessage ackObserve true; EvNotify "temp" (Some "21.5"%string) ackObserve].
Proof.
  destruct (@Acknowledgement_only_notifies sample tempServer 5 ackObserve None peerA eq_refl)
    as (_ & _ & _ & Htr).
  exact Htr.
Defined.

Lemma unsupported_method_not_implemented_witness :
  exists resp,
    sent (snd (handleMessage seenTempServer 5 fetchTemp (Some ERR_UNKNOWN_CRITICAL_OPTION) peerA))
    = [(resp, peerA)] /\
    Code resp = COAPCODE_501_NOT_IMPLEMENTED.
Proof.
  assert (Hack : MessageType fetchTemp <> TYPE_ACKNOWLEDGEMENT) by discriminate.
  assert (Hrst : MessageType fetchTemp <> TYPE_RESET) by discriminate.
  destruct (@unsupported_method_not_implemented sample seenTempServer 5 fetchTemp
              (Some ERR_UNKNOWN_CRITICAL_OPTION) peerA Hack Hrst eq_refl)
    as (_ & _ & resp & Hs & _ & Hc & _).
  exists resp. split; assumption.
Defined.

Lemma unknown_critical_option_bad_option_witness :
  sent (snd (handleMessage tempServer 5 getTempNon (Some ERR_UNKNOWN_CRITICAL_OPTION) peerA)) = [].
Proof.
  assert (Hack : MessageType getTempNon <> TYPE_ACKNOWLEDGEMENT) by discriminate.
  assert (Hrst : MessageType getTempNon <> TYPE_RESET) by discriminate.
  destruct (@unknown_critical_option_bad_option sample tempServer 5 getTempNon peerA Hack Hrst eq_refl)
    as (_ & _ & Hnon).
  apply Hnon. discriminate.
Defined.

Lemma proxy_request_bypasses_routes_witness :
  snd (handleMessage tempServer 5 proxyTemp None peerA)
  = [EvMessage proxyTemp true; CallCoapHttpProxy proxyTemp peerA].
Proof.
  assert (Hack : MessageType proxyTemp <> TYPE_ACKNOWLEDGEMENT) by discriminate.
  assert (Hrst : MessageType proxyTemp <> TYPE_RESET) by discriminate.
  assert (Herr : @None Error <> Some ERR_UNKNOWN_CRITICAL_OPTION) by discriminate.
  assert (Hp : IsProxyRequest proxyTemp = true) by reflexivity.
  destruct (@proxy_request_bypasses_routes sample tempServer 5 proxyTemp None peerA
              Hack Hrst eq_refl Herr Hp)
    as (_ & _ & _ & Htr).
  exact Htr.
Defined.

Lemma refused_request_reply_witness :
  exists ret,
    sent (snd (handleMessage seenTempServer 5 putTemp None peerA)) = [(ret, peerA)] /\
    Code ret = COAPCODE_405_METHOD_NOT_ALLOWED.
Proof.
  assert (Hr : reachesRouting putTemp None).
  { repeat split; try discriminate; reflexivity. }
  destruct (@refused_request_reply sample seenTempServer 5 putTemp None peerA
              ERR_NO_MATCHING_METHOD COAPCODE_405_METHOD_NOT_ALLOWED Hr
              (or_introl (conj eq_refl eq_refl)) eq_refl)
    as (_ & _ & _ & ret & Hs & _ & Hc & _).
  exists ret. split; assumption.
Defined.

Lemma other_match_error_dropped_witness :
  @handleMessage failing tempServer 5 getTemp None peerA = (tempServer, [EvMessage getTemp true]).
Proof.
  assert (Hr : @reachesRouting failing getTemp None).
  { repeat split; try discriminate; reflexivity. }
  exact (@other_match_error_dropped failing tempServer 5 getTemp None peerA
           (ERR_OTHER "bad pattern") Hr eq_refl eq_refl eq_refl).
Defined.

Lemma served_request_witness :
  map (fun p => Code (fst p)) (sent (snd (handleMessage tempServer 5 getTemp None peerA)))
  = [COAPCODE_0_EMPTY; COAPCODE_205_CONTENT].
Proof.
  assert (Hr : reachesRouting getTemp None).
  { repeat split; try discriminate; reflexivity. }
  destruct (@served_request sample tempServer 5 getTemp None peerA tempRoute [] Hr eq_refl eq_refl eq_refl)
    as (_ & _ & Hs).
  rewrite Hs. reflexivity.
Defined.

Lemma served_request_repeated_witness :
  handlerCalls (snd (handleMessage (fst (handleMessage tempServer 5 getTemp None peerA))
                                   6 getTemp None peerA)) = [].
Proof.
  assert (Hr : reachesRouting getTemp None).
  { repeat split; try discriminate; reflexivity. }
  destruct (@served_request_repeated sample tempServer 5 6 getTemp None peerA tempRoute []
              Hr eq_refl eq_refl)
    as (_ & _ & Hcalls & _).
  exact Hcalls.
Defined.

Lemma registry_changes_only_for_observe_requests_witness :
  observations (fst (handleMessage observedServer 5 observeTempNon None peerA))
  = observations observedServer.
Proof.
  apply (@registry_changes_only_for_observe_requests sample observedServer 5 observeTempNon None peerA).
  reflexivity.
Defined.

Lemma register_then_cancel_witness :
  default [] (observations
                (removeObservation (addObservation observedServer "temp" "tkB" peerB)
                                   "temp" peerB) !! "temp"%string)
  = [mkObservation peerA "tk" "temp" 3].
Proof.
  destruct (@register_then_cancel sample observedServer "temp" "tkB" peerB eq_refl) as (_ & Hlist & _).
  rewrite Hlist. reflexivity.
Defined.

Lemma removeObservation_cancels_witness :
  S (observers (removeObservation twoObservers "temp" peerA) "temp") = 2%nat.
Proof.
  destruct (@removeObservation_cancels sample twoObservers "temp" peerA
              [mkObservation peerA "tkA" "temp" 3; mkObservation peerB "tkB" "temp" 8]
              eq_refl eq_refl)
    as (Hcount & _).
  rewrite Hcount. reflexivity.
Defined.

Lemma NotifyChange_without_observers_witness :
  snd (NotifyChange twoObservers "humidity" "40" true 77) = [].
Proof.
  destruct (@NotifyChange_without_observers sample twoObservers "humidity" "40" true 77 eq_refl)
    as (Htr & _).
  exact Htr.
Defined.

Lemma NotifyChange_unconfirmed_witness :
  observations (fst (NotifyChange twoObservers "temp" "21.5" false 77)) !! "temp"%string
  = Some [mkObservation peerA "tkA" "temp" 4; mkObservation peerB "tkB" "temp" 9].
Proof.
  destruct (@NotifyChange_unconfirmed sample twoObservers "temp" "21.5" 77
              [mkObservation peerA "tkA" "temp" 3; mkObservation peerB "tkB" "temp" 8])
    as (_ & _ & _ & Hobs);
    [reflexivity | repeat constructor; discriminate | exact Hobs].
Defined.

Lemma NotifyChange_twice_witness :
  observations (fst (NotifyChange (fst (NotifyChange twoObservers "temp" "21.5" false 77))
                                  "temp" "22.0" true 78)) !! "temp"%string
  = Some [mkObservation peerA "tkA" "temp" 5; mkObservation peerB "tkB" "temp" 10].
Proof.
  destruct (@NotifyChange_twice sample twoObservers "temp" "21.5" "22.0" false 77 78
              [mkObservation peerA "tkA" "temp" 3; mkObservation peerB "tkB" "temp" 8])
    as (_ & Hobs);
    [reflexivity | repeat constructor; discriminate | exact Hobs].
Defined.

Lemma NotifyChange_first_Observe_option_witness :
  length (notifications None (snd (NotifyChange twoObservers "temp" "21.5" true 77))) = 2%nat.
Proof.
  destruct (@NotifyChange_first_Observe_option sample twoObservers "temp" "21.5" true 77
              (mkObservation peerA "tkA" "temp" 3) [mkObservation peerB "tkB" "temp" 8])
    as (_ & Hlen & _);
    [intros uri; reflexivity | reflexivity | split; [discriminate | reflexivity] | exact Hlen].
Defined.


Lemma repeat_after_purge_witness :
  exists req,
    handlerCalls (snd (handleMessage
                         (purgeTick 1000 (fst (handleMessage tempServer 5 getTemp None peerA)))
                         1001 getTemp None peerA))
    = [(tempRoute, req)].
Proof.
  assert (Hr : reachesRouting getTemp None).
  { repeat split; try discriminate; reflexivity. }
  destruct (@repeat_after_purge sample tempServer 5 1000 1001 getTemp None peerA tempRoute []
              Hr eq_refl eq_refl)
    as (_ & Hold).
  apply Hold. reflexivity.
Defined.

Lemma handleMessage_answers_sender_witness :
  (length (sent (snd (handleMessage seenTempServer 5 putTemp None peerA))) <= 1)%nat.
Proof.
  destruct (@handleMessage_answers_sender sample seenTempServer 5 putTemp None peerA)
    as (_ & _ & _ & _ & Hquiet).
  apply Hquiet. reflexivity.
Defined.
